(** * sequelize-pg-generator: the catalog-to-model transformation of [index.js]

    A shallow embedding of the functions of [index.js] that turn catalog rows
    into Sequelize model definitions and associations:
    [toCamelCase], [toPascalCase], [getColumnType], the column callback and
    the association bookkeeping of [generateTableDefinition], the loop of
    [generateDefinitions] and [generateAssociations].

    Conventions of the embedding.
    - A JavaScript string is a [string]; a character stands for one UTF-16
      code unit below 256.
    - [null] and [undefined] are [None]; a catalog column that is SQL NULL
      arrives as [null], and the row [{data_type: ...}] that [getColumnType]
      builds for an array element leaves every other field [undefined].
    - An object used as a dictionary is a finite map or set keyed by
      strings. [associations], keyed by table names, is the map of its own
      properties read together with the members every object inherits from
      [Object.prototype]; [instancedModels] and [includedModels] are sets of
      model names.
    - A thrown exception is the [Throw] outcome of [Result].
    - Functions of the host ([String.prototype.toUpperCase], the [inflection]
      package, a [RegExp] built from a run-time pattern) are the fields of
      the class [Host]; every definition and theorem is parametric in it. *)

From Stdlib Require Import ZArith Ascii.
From stdpp Require Import gmap strings list fin_maps pretty sorting.

Local Open Scope Z_scope.

(** ** Outcomes *)

Inductive Exn : Type :=
| Error (message : string)   (* [throw new Error(message)] *)
| TypeError                  (* a property read on [undefined] or [null] *)
| SyntaxError.               (* an invalid pattern given to [new RegExp] *)

Inductive Result (A : Type) : Type :=
| Ok (a : A)
| Throw (e : Exn).
Arguments Ok {A} a.
Arguments Throw {A} e.

Definition rbind {A B} (r : Result A) (k : A → Result B) : Result B :=
  match r with
  | Ok a => k a
  | Throw e => Throw e
  end.

Notation "'let*' x := r 'in' k" := (rbind r (fun x => k))
  (at level 10, x name, r at level 100, k at level 200, only parsing).

(** [Array.prototype.map] with a callback that may throw: the first exception
    leaves the loop. *)
Fixpoint mapR {A B} (f : A → Result B) (l : list A) : Result (list B) :=
  match l with
  | [] => Ok []
  | x :: l' =>
      let* y := f x in
      let* ys := mapR f l' in
      Ok (y :: ys)
  end.

(** A loop whose body updates a state and may throw. *)
Fixpoint foldR {A B} (f : B → A → Result B) (l : list A) (b : B) : Result B :=
  match l with
  | [] => Ok b
  | x :: l' =>
      let* b' := f b x in
      foldR f l' b'
  end.

(** ** Strings *)

Module JS.

Definition tabChar : string := String "009"%char "".
Definition newline : string := String "010"%char "".
Definition dquote : ascii := "034"%char.
Definition backslash : ascii := "092"%char.

(** [s.length] *)
Definition len (s : string) : Z := Z.of_nat (String.length s).

(** [s.substring(start, end)]: both indices are clamped to [0, length] and
    swapped when they come in the wrong order. *)
Definition substring (s : string) (start end_ : Z) : string :=
  let a := Z.min (Z.max start 0) (len s) in
  let b := Z.min (Z.max end_ 0) (len s) in
  let from := Z.min a b in
  let to := Z.max a b in
  String.substring (Z.to_nat from) (Z.to_nat (to - from)) s.

(** [s.substring(start)] *)
Definition substringFrom (s : string) (start : Z) : string :=
  substring s start (len s).

(** [s.charAt(0)] *)
Definition charAt0 (s : string) : string :=
  match s with
  | "" => ""
  | String c _ => String c ""
  end.

(** [s.repeat(n)] *)
Fixpoint repeat (s : string) (n : nat) : string :=
  match n with
  | O => ""
  | S n' => s +:+ repeat s n'
  end.

(** [l.join(sep)] *)
Fixpoint join (sep : string) (l : list string) : string :=
  match l with
  | [] => ""
  | [x] => x
  | x :: l' => x +:+ sep +:+ join sep l'
  end.

(** [s.split(',')] on a one-character separator: never the empty array. *)
Fixpoint split_go (sep : ascii) (cur : string) (s : string) : list string :=
  match s with
  | "" => [String.rev cur]
  | String c r =>
      if Ascii.eqb c sep then String.rev cur :: split_go sep "" r
      else split_go sep (String c cur) r
  end.
Definition split (sep : ascii) (s : string) : list string := split_go sep "" s.

(** [p] is a prefix of [s]: the rest. *)
Fixpoint stripPrefix (p s : string) : option string :=
  match p, s with
  | "", _ => Some s
  | String a p', String b s' => if Ascii.eqb a b then stripPrefix p' s' else None
  | String _ _, "" => None
  end.

Definition startsWith (p s : string) : bool := bool_decide (is_Some (stripPrefix p s)).

(** [q] is a suffix of [s]: what stands before it. *)
Definition stripSuffix (q s : string) : option string :=
  String.rev <$> stripPrefix (String.rev q) (String.rev s).

(** A value in a boolean position: the empty string is falsy. *)
Definition truthy (s : option string) : bool :=
  match s with
  | None | Some "" => false
  | Some _ => true
  end.

(** [String(v)] of a string or [null], as [RegExp.prototype.exec] and
    template literals convert their argument. *)
Definition toStr (v : option string) : string :=
  match v with
  | Some s => s
  | None => "null"
  end.

(** [l.indexOf(x)], -1 when absent. *)
Fixpoint indexOf_from {A} `{EqDecision A} (x : A) (l : list A) (i : Z) : Z :=
  match l with
  | [] => -1
  | y :: l' => if decide (y = x) then i else indexOf_from x l' (i + 1)
  end.
Definition indexOf {A} `{EqDecision A} (l : list A) (x : A) : Z := indexOf_from x l 0.

(** The regular expression atom [.]: any code unit but a line terminator. *)
Definition dot (c : ascii) : bool :=
  negb (Ascii.eqb c "010"%char || Ascii.eqb c "013"%char).

Fixpoint allDot (s : string) : bool :=
  match s with
  | "" => true
  | String c r => dot c && allDot r
  end.

(** [parseInt(s)] with no radix. The value is the Number nearest to the
    integer read; [Int z] is exact for [|z| <= 2^53]. *)
Inductive Number : Type :=
| NaN
| NegZero
| Int (z : Z).

(** StrWhiteSpaceChar among the code units below 256. *)
Definition isWhiteSpace (c : ascii) : bool :=
  let n := N_of_ascii c in
  ((9 <=? n) && (n <=? 13) || (n =? 32) || (n =? 160))%N.

Fixpoint trimStart (s : string) : string :=
  match s with
  | "" => ""
  | String c r => if isWhiteSpace c then trimStart r else s
  end.

Definition digitValue (c : ascii) : option Z :=
  let n := Z.of_N (N_of_ascii c) in
  if (48 <=? n) && (n <=? 57) then Some (n - 48)
  else if (97 <=? n) && (n <=? 122) then Some (n - 87)
  else if (65 <=? n) && (n <=? 90) then Some (n - 55)
  else None.

(** The digits of radix [R] at the front of [s], read left to right onto the
    accumulator; [None] when there is none. *)
Fixpoint digits (R : Z) (s : string) (acc : option Z) : option Z :=
  match s with
  | "" => acc
  | String c r =>
      match digitValue c with
      | Some d => if d <? R then digits R r (Some (R * default 0 acc + d)) else acc
      | None => acc
      end
  end.

Definition parseInt (s : string) : Number :=
  let S0 := trimStart s in
  let '(neg, S1) :=
    match S0 with
    | String "-" r => (true, r)
    | String "+" r => (false, r)
    | _ => (false, S0)
    end in
  let '(R, S2) :=
    match S1 with
    | String "0" (String "x" r) | String "0" (String "X" r) => (16, r)
    | _ => (10, S1)
    end in
  match digits R S2 None with
  | None => NaN
  | Some 0 => if neg then NegZero else Int 0
  | Some m => Int (if neg then - m else m)
  end.

(** [JSON.stringify(s)] of a string: QuoteJSONString. *)
Definition hexDigit (n : N) : ascii :=
  if (n <? 10)%N then ascii_of_N (48 + n) else ascii_of_N (87 + n).

Definition quoteChar (c : ascii) : string :=
  let n := N_of_ascii c in
  if Ascii.eqb c dquote then String backslash (String dquote "")
  else if Ascii.eqb c backslash then String backslash (String backslash "")
  else if (n =? 8)%N then String backslash "b"
  else if (n =? 9)%N then String backslash "t"
  else if (n =? 10)%N then String backslash "n"
  else if (n =? 12)%N then String backslash "f"
  else if (n =? 13)%N then String backslash "r"
  else if (n <? 32)%N then
    String backslash ("u00" +:+ String (hexDigit (n / 16)) (String (hexDigit (n mod 16)) ""))
  else String c "".

Fixpoint quoteBody (s : string) : string :=
  match s with
  | "" => ""
  | String c r => quoteChar c +:+ quoteBody r
  end.

Definition JSON_stringify (s : string) : string :=
  String dquote (quoteBody s) +:+ String dquote "".

End JS.

(** ** The host *)

Class Host : Type := {
  (** [String.prototype.toUpperCase] and [toLowerCase] *)
  toUpperCase : string → string;
  toLowerCase : string → string;
  (** [inflection.singularize] and [inflection.pluralize] *)
  singularize : string → string;
  pluralize : string → string;
  (** [new RegExp(source).exec(text)] for a pattern with one capture group:
      a thrown [SyntaxError], [null] ([None]), or a match with the text of
      group 1, [undefined] ([Some None]) when the group took no part. *)
  RegExp_exec : string → string → Result (option (option string));
}.

(** ** Regular expressions written in the source *)

(** Rule 1 of the default chain: the pattern, written with blanks between
    its atoms,   ^ ' ( . * ) ' (?: ::character varying )? $   applied with
    [exec] to the column default; the result is group 1. The greedy star
    first tries to end at the last character of the text, so the closing
    quote is the last character, or else the one before the cast marker. *)
Definition execQuoted (text : option string) : option string :=
  match JS.toStr text with
  | String "'" rest =>
      match JS.stripSuffix "'" rest with
      | Some body => if JS.allDot body then Some body else None
      | None =>
          match JS.stripSuffix "'::character varying" rest with
          | Some body => if JS.allDot body then Some body else None
          | None => None
          end
      end
  | _ => None
  end.

(** The leftmost quote of [t] that is followed, up to the end of [t], by at
    least one character and no line terminator: what follows it. *)
Fixpoint leftmostQuote (t : string) : option string :=
  match t with
  | "" => None
  | String c r =>
      if Ascii.eqb c "'" && negb (bool_decide (r = "")) && JS.allDot r then Some r
      else leftmostQuote r
  end.

(** The pattern   ' ( . + ) ' ::ty $   for a type name [ty] read literally:
    the text ends with the closing quote and the cast, and group 1 starts
    after the leftmost quote from which the dots can reach the closing one. *)
Definition execQuotedCast (ty : string) (text : option string) : option string :=
  match JS.stripSuffix ("'::" +:+ ty) (JS.toStr text) with
  | Some t => leftmostQuote t
  | None => None
  end.

(** Rule 2: the pattern   ' ( . + ) ' ::jsonb $   applied with [exec]. *)
Definition execJsonb (text : option string) : option string :=
  execQuotedCast "jsonb" text.

(** Rule 4: the pattern   ^ nextval \(   applied with [test]. *)
Definition testNextval (text : option string) : bool :=
  JS.startsWith "nextval(" (JS.toStr text).

(** [udt_name.replace(re, '')] where [re] matches a final pair of square
    brackets. *)
Definition stripArrayMarker (udt_name : string) : string :=
  default udt_name (JS.stripSuffix "[]" udt_name).

(** ** Catalog rows and the program's options *)

(** One row of [columnQuery]. [enum_values] is the text of the aggregated
    label array, braces included; [keys] is the parsed array of constraint
    types, whose elements may be [null]. *)
Record Row : Type := {
  column_name : string;
  column_default : option string;
  is_nullable : string;
  data_type : string;
  character_maximum_length : option N;
  udt_name : option string;
  enum_values : option string;
  keys : list (option string);
}.

(** One row of [foreignKeyQuery]. *)
Record FkRow : Type := {
  constraint_name : string;
  table_name : string;
  fk_column_name : string;
  reference_table : string;
  reference_column : string;
  other_table : option string;
}.

(** The options read from the command line ([parseArgs]). *)
Record Program : Type := {
  typescript : bool;
  includeForeignKeys : bool;
  camelCase : bool;
  indent_option : option string;
}.

(** [const indent = program.indent || '\t'] and [tab]. *)
Definition indent (program : Program) : string :=
  if JS.truthy (indent_option program) then JS.toStr (indent_option program)
  else JS.tabChar.

Definition tab (program : Program) (num : nat) : string :=
  JS.repeat (indent program) num.

(** The object [getColumnType] returns. *)
Record TypeData : Type := {
  dataType : string;
  docType : string;
  comment : option string;
  tsType : string;
}.

(** The value of [defaultValue] in the column callback. *)
Inductive DefaultValue : Type :=
| DNull
| DUndefined
| DString (s : string)
| DBool (b : bool)
| DNumber (n : JS.Number).

(** The object pushed on [columnData]; [propDocs] receives its [name] and the
    [docType] of [typeData]. The emitted column block prints the same fields,
    with a [defaultValue] line exactly when [defaultValue] is not [null]. *)
Record ColumnData : Type := {
  name : string;
  field : string;
  typeData : TypeData;
  typeComment : string;
  isPrimaryKey : bool;
  allowNull : bool;
  autoIncrement : bool;
  defaultValue : DefaultValue;
}.

(** An element of [associations[table]]. *)
Record Assoc : Type := {
  manyToMany : bool;
  model : string;
  fileName : string;
}.

Global Instance Assoc_eq_dec : EqDecision Assoc.
Proof. solve_decision. Defined.

(** ** Type classification: [getColumnType] *)

(** The row literal of the recursive call, with [data_type] alone. The fields
    [getColumnType] reads are undefined on it; the others are never read. *)
Definition elementRow (element_type : string) : Row :=
  {| column_name := ""; column_default := None; is_nullable := "";
     data_type := element_type; character_maximum_length := None;
     udt_name := None; enum_values := None; keys := [] |}.

(** [row.character_maximum_length || 'null'] inside a template. *)
Definition lengthText (row : Row) : string :=
  match character_maximum_length row with
  | Some n => if (n =? 0)%N then "null" else pretty n
  | None => "null"
  end.

(** [s === t] on strings. *)
Definition eqs (s t : string) : bool := bool_decide (s = t).

(** The switch of [getColumnType], with the function it calls for the
    element of an array as [self]; [None] is for a call that did not return. *)
Definition getColumnType_body (self : Row → option (Result TypeData)) (row : Row)
  : option (Result TypeData) :=
  let t := data_type row in
  if eqs t "integer" || eqs t "smallint" then
    Some (Ok {| dataType := "INTEGER"; docType := "number"; comment := None; tsType := "number" |})
  else if eqs t "numeric" then
    Some (Ok {| dataType := "DOUBLE"; docType := "number"; comment := None; tsType := "number" |})
  else if eqs t "character varying" then
    Some (Ok {| dataType := "STRING(" +:+ lengthText row +:+ ")";
                docType := "string"; comment := None; tsType := "string" |})
  else if eqs t "character" then
    Some (Ok {| dataType := "CHAR(" +:+ lengthText row +:+ ")";
                docType := "string"; comment := None; tsType := "string" |})
  else if eqs t "date" then
    Some (Ok {| dataType := "DATEONLY"; docType := "Date"; comment := None; tsType := "Date" |})
  else if eqs t "timestamp with time zone" then
    Some (Ok {| dataType := "DATE"; docType := "Date"; comment := None; tsType := "Date" |})
  else if eqs t "jsonb" then
    Some (Ok {| dataType := "JSONB"; docType := "Object"; comment := None; tsType := "any" |})
  else if eqs t "json" then
    Some (Ok {| dataType := "JSON"; docType := "Object"; comment := None; tsType := "any" |})
  else if eqs t "boolean" then
    Some (Ok {| dataType := "BOOLEAN"; docType := "boolean"; comment := None; tsType := "boolean" |})
  else if eqs t "USER-DEFINED" then
    match enum_values row with
    | None => Some (Throw TypeError)
    | Some ev =>
        let values := JS.split "," (JS.substring ev 1 (JS.len ev - 1)) in
        Some (Ok {| dataType := "ENUM('" +:+ JS.join "', '" values +:+ "')";
                    docType := "string";
                    comment := Some ("user defined type: " +:+ JS.toStr (udt_name row));
                    tsType := "string" |})
    end
  else if eqs t "text" then
    Some (Ok {| dataType := "TEXT"; docType := "string"; comment := None; tsType := "string" |})
  else if eqs t "ARRAY" then
    match udt_name row with
    | None => Some (Throw TypeError)
    | Some u =>
        match self (elementRow (stripArrayMarker u)) with
        | None => None
        | Some (Throw e) => Some (Throw e)
        | Some (Ok innerArrayType) =>
            Some (Ok {| dataType := "ARRAY(DataTypes." +:+ dataType innerArrayType +:+ ")";
                        docType := "Array";
                        comment := Some u;
                        tsType := tsType innerArrayType +:+ "[]" |})
        end
    end
  else Some (Throw (Error ("Unhandled data type: " +:+ t))).

(** [fuel] bounds the nesting of calls. *)
Fixpoint getColumnType_fuel (fuel : nat) (row : Row) : option (Result TypeData) :=
  match fuel with
  | O => None
  | S fuel' => getColumnType_body (getColumnType_fuel fuel') row
  end.

(** An array element row has no [udt_name], so the calls nest at most once. *)
Definition getColumnType (row : Row) : Result TypeData :=
  default (Throw TypeError) (getColumnType_fuel 2 row).

Section Generator.
Context `{Host}.

(** ** Names: [toCamelCase], [toPascalCase] *)

Definition isLetter (c : ascii) : bool :=
  let n := N_of_ascii c in
  ((97 <=? n) && (n <=? 122) || (65 <=? n) && (n <=? 90))%N.

(** [value.replace(re, (_, c) => c.toUpperCase())] where the global pattern
    [re] is an underscore followed by one captured letter of [a-zA-Z]. *)
Fixpoint toCamelCase (value : string) : string :=
  match value with
  | "" => ""
  | String c rest =>
      match rest with
      | String d rest' =>
          if Ascii.eqb c "_" && isLetter d
          then toUpperCase (String d "") +:+ toCamelCase rest'
          else String c (toCamelCase rest)
      | "" => String c ""
      end
  end.

Definition toPascalCase (value : string) : string :=
  let camelCase := toCamelCase value in
  toUpperCase (JS.charAt0 camelCase) +:+ JS.substringFrom camelCase 1.

(** ** The default chain of the column callback *)

(** The [if ... else if] chain that sets [defaultValue] or [isAutoIncrement]
    from [row.column_default], given the [dataType] of [getColumnType]; both
    start as [null] and [false]. *)
Definition defaultChain (row : Row) (dataType : string) : Result (DefaultValue * bool) :=
  let column_default := column_default row in
  match execQuoted column_default with
  | Some m1 => Ok (DString (JS.JSON_stringify m1), false)
  | None =>
  match execJsonb column_default with
  | Some m1 => Ok (DString m1, false)
  | None =>
  if bool_decide (column_default = Some "now()") then
    Ok (DString "DataTypes.NOW", false)
  else if testNextval column_default then
    Ok (DNull, true)
  else if JS.truthy column_default && eqs dataType "BOOLEAN" then
    Ok (DBool (negb (bool_decide (column_default = Some "false"))), false)
  else if JS.truthy column_default && eqs dataType "INTEGER" then
    Ok (DNumber (JS.parseInt (JS.toStr column_default)), false)
  else if JS.truthy column_default && eqs (data_type row) "ARRAY" then
    Ok (DString "[]", false)
  else if eqs (data_type row) "USER-DEFINED" then
    let* m := RegExp_exec ("'(.+)'::" +:+ JS.toStr (udt_name row) +:+ "$")
                          (JS.toStr column_default) in
    match m with
    | Some (Some m1) => Ok (DString (JS.JSON_stringify m1), false)
    | Some None => Ok (DUndefined, false)
    | None => Ok (DNull, false)
    end
  else Ok (DNull, false)
  end end.

(** ** The column callback of [generateTableDefinition] *)

(** [row.keys.indexOf(k) !== -1] *)
Definition hasKey (row : Row) (k : string) : bool :=
  negb (JS.indexOf (keys row) (Some k) =? -1).

(** The callback given to [rows.map]: [None] is the [null] returned for an
    omitted foreign-key column, which [filter(Boolean)] drops and for which
    nothing is pushed on [columnData] or [propDocs]. *)
Definition columnCallback (program : Program) (row : Row) : Result (option ColumnData) :=
  if negb (includeForeignKeys program) && hasKey row "FOREIGN KEY" then Ok None
  else
    let* dataTypeData := getColumnType row in
    let dataTypeComment :=
      if JS.truthy (comment dataTypeData) then JS.toStr (comment dataTypeData)
      else data_type row in
    let allowNull := eqs (is_nullable row) "YES" in
    let isPrimaryKey := hasKey row "PRIMARY KEY" in
    let* chain := defaultChain row (dataType dataTypeData) in
    let columnName :=
      if camelCase program then toCamelCase (column_name row) else column_name row in
    Ok (Some {| name := columnName;
                field := column_name row;
                typeData := dataTypeData;
                typeComment := dataTypeComment;
                isPrimaryKey := isPrimaryKey;
                allowNull := allowNull;
                autoIncrement := chain.2;
                defaultValue := chain.1 |}).

(** [columnData] after the [map]: the columns kept, in row order. *)
Definition columnDataOf (program : Program) (rows : list Row) : Result (list ColumnData) :=
  let* mapped := mapR (columnCallback program) rows in
  Ok (omap id mapped).

(** ** Associations: [generateAssociations] *)

(** [associations] is created as [{}]: the map holds its own properties, the
    arrays put under table names. The array [associations] owns under [k],
    the empty list standing for none: *)
Definition assocsOf (associations : gmap string (list Assoc)) (k : string) : list Assoc :=
  default [] (associations !! k).

(** The property names a plain object inherits from [Object.prototype]. Each
    of them names a function, or the prototype itself for [__proto__]: a
    truthy value that has no [push], [some] or [map]. *)
Definition objectPrototypeKeys : list string :=
  [ "constructor"; "__defineGetter__"; "__defineSetter__"; "hasOwnProperty";
    "__lookupGetter__"; "__lookupSetter__"; "isPrototypeOf"; "propertyIsEnumerable";
    "toString"; "valueOf"; "__proto__"; "toLocaleString" ].

Definition inherited (k : string) : bool := bool_decide (k ∈ objectPrototypeKeys).

(** The value of [associations[k]]: an array of its own, an inherited member,
    or [undefined]. An own property hides an inherited one. *)
Inductive Member : Type :=
| Own (l : list Assoc)
| Inherited
| Undefined.

Definition member (associations : gmap string (list Assoc)) (k : string) : Member :=
  match associations !! k with
  | Some l => Own l
  | None => if inherited k then Inherited else Undefined
  end.

(** [if (!associations[k]) associations[k] = []]: an array, even an empty
    one, and an inherited member are truthy. *)
Definition ensure (k : string) (associations : gmap string (list Assoc))
  : gmap string (list Assoc) :=
  match member associations k with
  | Undefined => <[k := []]> associations
  | Own _ | Inherited => associations
  end.

(** [associations[k].push(a)]: a [TypeError] when [associations[k]] is an
    inherited member, which has no [push], or [undefined]. *)
Definition push (k : string) (a : Assoc) (associations : gmap string (list Assoc))
  : Result (gmap string (list Assoc)) :=
  match member associations k with
  | Own l => Ok (<[k := l ++ [a]]> associations)
  | Inherited | Undefined => Throw TypeError
  end.

(** The comment line that opens the code of one foreign-key row. *)
Definition relationComment (program : Program) (row : FkRow) : string :=
  let comment := table_name row +:+ "." +:+ fk_column_name row +:+ " -> "
                 +:+ reference_table row +:+ "." +:+ reference_column row
                 +:+ " (" +:+ constraint_name row +:+ ")" in
  JS.newline +:+ tab program 1 +:+ "// " +:+ comment.

(** The relation statement of one foreign-key row. *)
Definition relationCode (program : Program) (row : FkRow) : string :=
  let tableName := table_name row in
  let columnName := fk_column_name row in
  let refTableName := reference_table row in
  let modelName := toPascalCase tableName in
  let targetModelName := toPascalCase refTableName in
  let asName := toCamelCase refTableName in
  let code := relationComment program row in
  if JS.truthy (other_table row) then
    let otherModel := toPascalCase (JS.toStr (other_table row)) in
    code +:+ JS.newline +:+ tab program 1 +:+ "models." +:+ targetModelName
      +:+ ".belongsToMany(models." +:+ otherModel +:+ ", { through: models." +:+ modelName
      +:+ ", foreignKey: '" +:+ columnName +:+ "' });"
  else
    code +:+ JS.newline +:+ tab program 1 +:+ "models." +:+ modelName
      +:+ ".belongsTo(models." +:+ targetModelName +:+ ", { foreignKey: '" +:+ columnName
      +:+ "', as: '" +:+ asName +:+ "' });".

(** What one foreign-key row adds to [associations]: the missing arrays are
    created first, then the entries are pushed. *)
Definition register (row : FkRow) (associations : gmap string (list Assoc))
  : Result (gmap string (list Assoc)) :=
  let refTableName := reference_table row in
  let targetModelName := toPascalCase refTableName in
  if JS.truthy (other_table row) then
    let otherTableName := JS.toStr (other_table row) in
    let associations := ensure otherTableName associations in
    let associations := ensure refTableName associations in
    let* associations :=
      push otherTableName
        {| manyToMany := true; model := targetModelName; fileName := refTableName |}
        associations in
    push refTableName
      {| manyToMany := true; model := toPascalCase otherTableName; fileName := otherTableName |}
      associations
  else
    let associations := ensure (table_name row) associations in
    push (table_name row)
      {| manyToMany := false; model := targetModelName; fileName := refTableName |}
      associations.

(** The callback of [rows.map] in [generateAssociations], threading the
    [associations] object it updates. *)
Definition associationCallback (program : Program)
    (st : list string * gmap string (list Assoc)) (row : FkRow)
  : Result (list string * gmap string (list Assoc)) :=
  let code := relationCode program row in
  let* associations := register row st.2 in
  Ok (st.1 ++ [code], associations).

(** [generateAssociations]: the relation statements, in row order, and the
    [associations] object left for [generateDefinitions]; an exception of
    the callback leaves [rows.map] and nothing is written. *)
Definition generateAssociations (program : Program) (rows : list FkRow)
  : Result (list string * gmap string (list Assoc)) :=
  foldR (associationCallback program) rows ([], ∅).

(** ** The TypeScript part of [generateTableDefinition] *)

(** What a [map] callback over the associations returns: a string (the empty
    one for a model already seen), or the array of four method lines. *)
Inductive Block : Type :=
| BString (s : string)
| BArray (lines : list string).

(** [Boolean(block)]: only the empty string is dropped by [filter(Boolean)]. *)
Definition kept (b : Block) : bool :=
  match b with
  | BString "" => false
  | _ => true
  end.

(** [Array.isArray(next) ? next : [ next ]] *)
Definition blockLines (b : Block) : list string :=
  match b with
  | BString s => [s]
  | BArray l => l
  end.

(** [s[0].toLowerCase() + s.substring(1)]; [s[0]] is undefined on the empty
    string. *)
Definition lowerFirst (s : string) : Result string :=
  match s with
  | "" => Throw TypeError
  | String c _ => Ok (toLowerCase (String c "") +:+ JS.substringFrom s 1)
  end.

(** The callback that builds [instanceCode], with [instancedModels]. *)
Definition instanceCallback (program : Program) (instancedModels : gset string) (ass : Assoc)
  : Result (Block * gset string) :=
  if bool_decide (model ass ∈ instancedModels) then Ok (BString "", instancedModels)
  else
    let instancedModels := {[model ass]} ∪ instancedModels in
    if manyToMany ass then
      let pluralized := pluralize (model ass) in
      let* pluralLower := lowerFirst pluralized in
      let singular := singularize (model ass) in
      let* singularLower := lowerFirst singular in
      Ok (BArray
            [ tab program 1 +:+ "get" +:+ pluralized +:+ ": (options?: FindOptions<"
                +:+ model ass +:+ ">) => Promise<" +:+ model ass +:+ "[]>";
              tab program 1 +:+ "set" +:+ pluralized +:+ ": (" +:+ pluralLower +:+ ": "
                +:+ model ass +:+ "[]) => Promise<void>";
              tab program 1 +:+ "add" +:+ singular +:+ ": (" +:+ singularLower +:+ ": "
                +:+ model ass +:+ ") => Promise<void>";
              tab program 1 +:+ "add" +:+ pluralized +:+ ": (" +:+ pluralLower +:+ ": "
                +:+ model ass +:+ "[]) => Promise<void>" ],
          instancedModels)
    else
      let* property := lowerFirst (model ass) in
      Ok (BString (tab program 1 +:+ property +:+ ": " +:+ model ass +:+ " | null"),
          instancedModels).

(** The callback that builds [includeCode], with [includedModels]; both
    branches of its last test return the same import line. *)
Definition includeCallback (includedModels : gset string) (ass : Assoc)
  : Result (Block * gset string) :=
  if bool_decide (model ass ∈ includedModels) then Ok (BString "", includedModels)
  else
    Ok (BString ("import { " +:+ model ass +:+ " } from './" +:+ fileName ass +:+ "';"),
        {[model ass]} ∪ includedModels).

(** [l.map(callback)] for a callback that reads and updates a set of seen
    models: the array it returns has one block per association. *)
Fixpoint mapSeen (callback : gset string → Assoc → Result (Block * gset string))
    (seen : gset string) (l : list Assoc) : Result (list Block) :=
  match l with
  | [] => Ok []
  | ass :: l' =>
      let* r := callback seen ass in
      let* blocks := mapSeen callback r.2 l' in
      Ok (r.1 :: blocks)
  end.

Definition instanceMap (program : Program) (l : list Assoc) : Result (list Block) :=
  mapSeen (instanceCallback program) ∅ l.

Definition includeMap (l : list Assoc) : Result (list Block) :=
  mapSeen includeCallback ∅ l.

(** [.filter(Boolean).reduce((lines, next) => lines.concat(...), [])]: the
    lines that [join] glues with a newline. *)
Definition linesOf (blocks : list Block) : list string :=
  concat (blockLines <$> filter (λ b, kept b = true) blocks).

(** The pieces the TypeScript template is filled with; [includeCode],
    [attributeCode] and [instanceCode] are kept as the lines their [join]
    separates by a newline. *)
Record TsParts : Type := {
  sequelizeImports : list string;
  includeCode : list string;
  attributeCode : list string;
  instanceCode : list string;
}.

Definition typescriptParts (program : Program) (associations : gmap string (list Assoc))
    (tableName : string) (columnData : list ColumnData) : Result TsParts :=
  let attributeCode :=
    (λ col, tab program 1 +:+ name col +:+ ": " +:+ tsType (typeData col)) <$> columnData in
  let sequelizeImports := ["DataTypes"; "DefineAttributes"; "DefineOptions"] in
  match member associations tableName with
  | Own l =>
      let sequelizeImports :=
        if existsb manyToMany l then sequelizeImports ++ ["FindOptions"] else sequelizeImports in
      let* instanceBlocks := instanceMap program l in
      let* includeBlocks := includeMap l in
      Ok {| sequelizeImports := sequelizeImports;
            includeCode := linesOf includeBlocks;
            attributeCode := attributeCode;
            instanceCode := linesOf instanceBlocks |}
  | Inherited =>
      (* truthy, and [associations[tableName].some] is not a function *)
      Throw TypeError
  | Undefined =>
      Ok {| sequelizeImports := sequelizeImports;
            includeCode := [];
            attributeCode := attributeCode;
            instanceCode := [] |}
  end.

(** ** [generateTableDefinition] and the loop of [generateDefinitions] *)

(** The file written for one table: the name of the file in the models
    directory and the values its template prints. [columns] stands for
    [columnsCode] and [propDocs]; [ts] is present in TypeScript mode only. *)
Record ModelFile : Type := {
  targetFile : string;
  tableName : string;
  className : string;
  columns : list ColumnData;
  ts : option TsParts;
}.

Definition generateTableDefinition (program : Program)
    (associations : gmap string (list Assoc)) (tableName : string) (rows : list Row)
  : Result ModelFile :=
  let* columnData := columnDataOf program rows in
  let className := singularize (toPascalCase tableName) in
  let* tsParts :=
    if typescript program
    then let* parts := typescriptParts program associations tableName columnData in Ok (Some parts)
    else Ok None in
  let ext := if typescript program then "ts" else "js" in
  Ok {| targetFile := tableName +:+ "." +:+ ext;
        tableName := tableName;
        className := className;
        columns := columnData;
        ts := tsParts |}.

(** The [for] loop over [tables]: the files written so far, oldest first, and
    how the loop ended. [columnQuery] gives the column rows of a table. *)
Fixpoint generateDefinitions (program : Program) (associations : gmap string (list Assoc))
    (columnQuery : string → list Row) (tables : list string)
  : list ModelFile * Result unit :=
  match tables with
  | [] => ([], Ok tt)
  | t :: tables' =>
      match generateTableDefinition program associations t (columnQuery t) with
      | Throw e => ([], Throw e)
      | Ok file =>
          let rest := generateDefinitions program associations columnQuery tables' in
          (file :: rest.1, rest.2)
      end
  end.

(** The rows of [allTablesQuery], read as [tables]: the names of the tables
    of the schema, [ORDER BY table_name]. [collate] is the order of the
    collation the database compares names with, [catalog] the names in the
    order the catalog holds them. *)
Definition allTablesQuery (collate : relation string) `{∀ x y, Decision (collate x y)}
    (catalog : list string) : list string :=
  merge_sort collate catalog.

(** [generate]: all associations first, then the definitions. The relation
    statements written, if [generateAssociations] returned, and the run of
    [generateDefinitions]. *)
Definition generate (program : Program) (fkRows : list FkRow)
    (columnQuery : string → list Row) (tables : list string)
  : option (list string) * (list ModelFile * Result unit) :=
  match generateAssociations program fkRows with
  | Ok relations => (Some relations.1, generateDefinitions program relations.2 columnQuery tables)
  | Throw e => (None, ([], Throw e))
  end.

(** ** Readings of the generated values used in the statements below *)

(** The test [defaultValue !== null] that decides whether the column block
    gets a [defaultValue] line. *)
Definition hasDefault (col : ColumnData) : bool :=
  match defaultValue col with
  | DNull => false
  | _ => true
  end.

(** The lines a model file gives to associations: its imports of other models
    and the members of its instance interface. *)
Definition associationLines (file : ModelFile) : list string :=
  match ts file with
  | Some parts => includeCode parts ++ instanceCode parts
  | None => []
  end.

(** The blocks of a mapped array that were kept for associations whose model
    is [target]; [blocks] is aligned with [l], as [map] returns it. *)
Fixpoint blocksFor (target : string) (l : list Assoc) (blocks : list Block) : list Block :=
  match l, blocks with
  | ass :: l', b :: blocks' =>
      if eqs (model ass) target && kept b then b :: blocksFor target l' blocks'
      else blocksFor target l' blocks'
  | _, _ => []
  end.

(** The raw type names with a case in the switch of [getColumnType], and
    those among them that need no field of the row but [data_type]. *)
Definition scalarTypes : list string :=
  [ "integer"; "smallint"; "numeric"; "character varying"; "character"; "date";
    "timestamp with time zone"; "jsonb"; "json"; "boolean"; "text" ].

Definition supportedTypes : list string := scalarTypes ++ [ "USER-DEFINED"; "ARRAY" ].

(** The values [docType] takes. *)
Definition scalarKinds : list string :=
  [ "number"; "string"; "Date"; "Object"; "boolean"; "Array" ].

(** The rows [getColumnType] classifies: a scalar type; a user-defined type
    with its label text; an array whose element type name is a scalar type. *)
Definition classifiable (row : Row) : bool :=
  if bool_decide (data_type row ∈ scalarTypes) then true
  else if eqs (data_type row) "USER-DEFINED" then bool_decide (is_Some (enum_values row))
  else if eqs (data_type row) "ARRAY" then
    match udt_name row with
    | Some u => bool_decide (stripArrayMarker u ∈ scalarTypes)
    | None => false
    end
  else false.

(** What one foreign-key row contributes to [associations[t]]. *)
Definition contributes (row : FkRow) (t : string) (a : Assoc) : Prop :=
  match other_table row with
  | Some o =>
      if JS.truthy (Some o) then
        (t = o ∧ a = {| manyToMany := true; model := toPascalCase (reference_table row);
                        fileName := reference_table row |})
        ∨ (t = reference_table row
           ∧ a = {| manyToMany := true; model := toPascalCase o; fileName := o |})
      else
        t = table_name row
        ∧ a = {| manyToMany := false; model := toPascalCase (reference_table row);
                 fileName := reference_table row |}
  | None =>
      t = table_name row
      ∧ a = {| manyToMany := false; model := toPascalCase (reference_table row);
               fileName := reference_table row |}
  end.

(** A callback that returns the empty string for a model already seen, and
    otherwise a block that is kept, recording the model. *)
Definition dedups (callback : gset string → Assoc → Result (Block * gset string)) : Prop :=
  ∀ seen ass r,
    callback seen ass = Ok r →
    if bool_decide (model ass ∈ seen) then r = (BString "", seen)
    else kept r.1 = true ∧ r.2 = {[model ass]} ∪ seen.

End Generator.

(** ** A host to run the definitions on examples *)

Module Sample.

Definition mapFirst (f : ascii → ascii) (s : string) : string :=
  match s with
  | "" => ""
  | String c r => String (f c) r
  end.

Definition upperChar (c : ascii) : ascii :=
  let n := N_of_ascii c in
  if ((97 <=? n) && (n <=? 122))%N then ascii_of_N (n - 32) else c.

Definition lowerChar (c : ascii) : ascii :=
  let n := N_of_ascii c in
  if ((65 <=? n) && (n <=? 90))%N then ascii_of_N (n + 32) else c.

Fixpoint mapChars (f : ascii → ascii) (s : string) : string :=
  match s with
  | "" => ""
  | String c r => String (f c) (mapChars f r)
  end.

(** A plural in [s], and its removal. *)
Definition plural (s : string) : string := s +:+ "s".
Definition singular (s : string) : string := default s (JS.stripSuffix "s" s).

(** The run-time pattern of the enum rule, its type name read literally. *)
Definition regExp (source text : string) : Result (option (option string)) :=
  match JS.stripPrefix "'(.+)'::" source with
  | Some rest =>
      match JS.stripSuffix "$" rest with
      | Some ty => Ok (Some <$> execQuotedCast ty (Some text))
      | None => Throw SyntaxError
      end
  | None => Throw SyntaxError
  end.

(** ASCII case mapping stands for the host's. *)
Definition host : Host :=
  {| toUpperCase := mapChars upperChar;
     toLowerCase := mapChars lowerChar;
     singularize := singular;
     pluralize := plural;
     RegExp_exec := regExp |}.

Definition typescriptProgram : Program :=
  {| typescript := true; includeForeignKeys := false; camelCase := false;
     indent_option := None |}.

Definition javascriptProgram : Program :=
  {| typescript := false; includeForeignKeys := false; camelCase := false;
     indent_option := None |}.

Definition column (name type : string) (default : option string) (keys : list (option string))
  : Row :=
  {| column_name := name; column_default := default; is_nullable := "NO";
     data_type := type; character_maximum_length := None; udt_name := Some type;
     enum_values := Some "{NULL}"; keys := keys |}.

(** A table [post] with two foreign keys to [category]. *)
Definition postColumns : list Row :=
  [ column "id" "integer" (Some "nextval('post_id_seq'::regclass)") [Some "PRIMARY KEY"];
    column "title" "text" None [None];
    column "category_id" "integer" None [Some "FOREIGN KEY"];
    column "second_category_id" "integer" None [Some "FOREIGN KEY"] ].

Definition postForeignKeys : list FkRow :=
  [ {| constraint_name := "post_category_id_fkey"; table_name := "post";
       fk_column_name := "category_id"; reference_table := "category";
       reference_column := "id"; other_table := None |};
    {| constraint_name := "post_second_category_id_fkey"; table_name := "post";
       fk_column_name := "second_category_id"; reference_table := "category";
       reference_column := "id"; other_table := None |} ].

(** A pivot table [post_tag] whose primary key is its two foreign keys. *)
Definition postTagColumns : list Row :=
  [ column "post_id" "integer" None [Some "FOREIGN KEY"; Some "PRIMARY KEY"];
    column "tag_id" "integer" None [Some "FOREIGN KEY"; Some "PRIMARY KEY"] ].

Definition postTagForeignKeys : list FkRow :=
  [ {| constraint_name := "post_tag_post_id_fkey"; table_name := "post_tag";
       fk_column_name := "post_id"; reference_table := "post";
       reference_column := "id"; other_table := Some "tag" |};
    {| constraint_name := "post_tag_tag_id_fkey"; table_name := "post_tag";
       fk_column_name := "tag_id"; reference_table := "tag";
       reference_column := "id"; other_table := Some "post" |} ].

End Sample.

(** ** Readings used by the further properties *)

Section Readings.
Context `{Host}.

(** What one foreign-key row pushes on [associations[t]], in push order. *)
Definition entriesOf (t : string) (row : FkRow) : list Assoc :=
  let refTableName := reference_table row in
  if JS.truthy (other_table row) then
    let otherTableName := JS.toStr (other_table row) in
    (if decide (otherTableName = t)
     then [ {| manyToMany := true; model := toPascalCase refTableName;
               fileName := refTableName |} ]
     else [])
    ++ (if decide (refTableName = t)
        then [ {| manyToMany := true; model := toPascalCase otherTableName;
                  fileName := otherTableName |} ]
        else [])
  else
    if decide (table_name row = t)
    then [ {| manyToMany := false; model := toPascalCase refTableName;
              fileName := refTableName |} ]
    else [].

(** No own property of [associations] bears an inherited name: an array is
    created only where [associations[k]] was falsy. *)
Definition wellKeyed (associations : gmap string (list Assoc)) : Prop :=
  ∀ k, inherited k = true → associations !! k = None.

(** A row that names, where it pushes, a property every object inherits. *)
Definition hitsPrototype (row : FkRow) : bool :=
  if JS.truthy (other_table row)
  then inherited (JS.toStr (other_table row)) || inherited (reference_table row)
  else inherited (table_name row).

(** The associations of a list whose model is met for the first time, the
    models of [seen] counting as met. *)
Fixpoint firstByModel (seen : gset string) (l : list Assoc) : list Assoc :=
  match l with
  | [] => []
  | ass :: l' =>
      if decide (model ass ∈ seen) then firstByModel seen l'
      else ass :: firstByModel ({[model ass]} ∪ seen) l'
  end.

(** The import line of [includeCode] for one association. *)
Definition importLine (ass : Assoc) : string :=
  "import { " +:+ model ass +:+ " } from './" +:+ fileName ass +:+ "';".

(** The block of [instanceCode] for one association met for the first time. *)
Definition instanceBlock (program : Program) (ass : Assoc) : Result Block :=
  let* r := instanceCallback program ∅ ass in Ok r.1.

End Readings.

(** A name [toCamelCase] has nothing to replace in: no underscore is followed
    by a letter of [a-zA-Z]. *)
Fixpoint camelStable (value : string) : bool :=
  match value with
  | "" => true
  | String c rest =>
      match rest with
      | String d _ => negb (Ascii.eqb c "_" && isLetter d) && camelStable rest
      | "" => true
      end
  end.

(** [s.replace(re, "', '")] for the global pattern [re] of one comma, which
    is what [split(',')] followed by [join("', '")] amounts to. *)
Fixpoint replaceCommas (s : string) : string :=
  match s with
  | "" => ""
  | String c r => if Ascii.eqb c "," then "', '" +:+ replaceCommas r else String c (replaceCommas r)
  end.

(** A label of an enumeration that holds no comma. *)
Definition commaFree (s : string) : Prop := ","%char ∉ String.list_ascii_of_string s.

(** ** The command line: [parseArgs] and the checks made before [generate] *)

Module Cli.

(** [program.connection]; [port] keeps the argument given to [Number]. *)
Record Connection : Type := {
  user : option string;
  database : option string;
  password : option string;
  port : option (option string);
  host : option string;
  schema : option string;
}.

(** The object [parseArgs] fills; a field never assigned is [None] or
    [false]. *)
Record Args : Type := {
  quiet : bool;
  connection : Connection;
  modelsDir : option string;
  verbose : option Z;
  relationsFile : option string;
  indent : option string;
  typescript : bool;
  includeForeignKeys : bool;
  camelCase : bool;
}.

Definition initial : Args :=
  {| quiet := false;
     connection := {| user := None; database := None; password := None; port := None;
                      host := None; schema := None |};
     modelsDir := None; verbose := None; relationsFile := None; indent := None;
     typescript := false; includeForeignKeys := false; camelCase := false |}.

Definition setConnection (f : Connection → Connection) (p : Args) : Args :=
  {| quiet := quiet p; connection := f (connection p); modelsDir := modelsDir p;
     verbose := verbose p; relationsFile := relationsFile p; indent := indent p;
     typescript := typescript p; includeForeignKeys := includeForeignKeys p;
     camelCase := camelCase p |}.

(** The cases of the switch that read the next argument, [args[++i]]. *)
Definition valueOption (arg : string) : option (option string → Args → Args) :=
  if eqs arg "--models-dir" then
    Some (λ v p, {| quiet := quiet p; connection := connection p; modelsDir := v;
                    verbose := verbose p; relationsFile := relationsFile p; indent := indent p;
                    typescript := typescript p; includeForeignKeys := includeForeignKeys p;
                    camelCase := camelCase p |})
  else if eqs arg "--relations-file" then
    Some (λ v p, {| quiet := quiet p; connection := connection p; modelsDir := modelsDir p;
                    verbose := verbose p; relationsFile := v; indent := indent p;
                    typescript := typescript p; includeForeignKeys := includeForeignKeys p;
                    camelCase := camelCase p |})
  else if eqs arg "--indent" then
    Some (λ v p, {| quiet := quiet p; connection := connection p; modelsDir := modelsDir p;
                    verbose := verbose p; relationsFile := relationsFile p; indent := v;
                    typescript := typescript p; includeForeignKeys := includeForeignKeys p;
                    camelCase := camelCase p |})
  else if eqs arg "-U" || eqs arg "--username" then
    Some (λ v, setConnection (λ c,
      {| user := v; database := database c; password := password c; port := port c;
         host := host c; schema := schema c |}))
  else if eqs arg "-d" || eqs arg "--dbname" then
    Some (λ v, setConnection (λ c,
      {| user := user c; database := v; password := password c; port := port c;
         host := host c; schema := schema c |}))
  else if eqs arg "--password" || eqs arg "-p" then
    Some (λ v, setConnection (λ c,
      {| user := user c; database := database c; password := v; port := port c;
         host := host c; schema := schema c |}))
  else if eqs arg "--port" || eqs arg "-P" then
    Some (λ v, setConnection (λ c,
      {| user := user c; database := database c; password := password c; port := Some v;
         host := host c; schema := schema c |}))
  else if eqs arg "--host" || eqs arg "-h" then
    Some (λ v, setConnection (λ c,
      {| user := user c; database := database c; password := password c; port := port c;
         host := v; schema := schema c |}))
  else if eqs arg "--schema" then
    Some (λ v, setConnection (λ c,
      {| user := user c; database := database c; password := password c; port := port c;
         host := host c; schema := v |}))
  else None.

(** The cases that read nothing more; any other argument changes nothing. *)
Definition flagOption (arg : string) (p : Args) : Args :=
  if eqs arg "--verbose" || eqs arg "-v" then
    {| quiet := quiet p; connection := connection p; modelsDir := modelsDir p;
       verbose := Some 1; relationsFile := relationsFile p; indent := indent p;
       typescript := typescript p; includeForeignKeys := includeForeignKeys p;
       camelCase := camelCase p |}
  else if eqs arg "-vv" then
    {| quiet := quiet p; connection := connection p; modelsDir := modelsDir p;
       verbose := Some 2; relationsFile := relationsFile p; indent := indent p;
       typescript := typescript p; includeForeignKeys := includeForeignKeys p;
       camelCase := camelCase p |}
  else if eqs arg "--quiet" || eqs arg "-q" then
    {| quiet := true; connection := connection p; modelsDir := modelsDir p;
       verbose := verbose p; relationsFile := relationsFile p; indent := indent p;
       typescript := typescript p; includeForeignKeys := includeForeignKeys p;
       camelCase := camelCase p |}
  else if eqs arg "--typescript" then
    {| quiet := quiet p; connection := connection p; modelsDir := modelsDir p;
       verbose := verbose p; relationsFile := relationsFile p; indent := indent p;
       typescript := true; includeForeignKeys := includeForeignKeys p;
       camelCase := camelCase p |}
  else if eqs arg "--include-foreign-keys" then
    {| quiet := quiet p; connection := connection p; modelsDir := modelsDir p;
       verbose := verbose p; relationsFile := relationsFile p; indent := indent p;
       typescript := typescript p; includeForeignKeys := true;
       camelCase := camelCase p |}
  else if eqs arg "--camel-case" then
    {| quiet := quiet p; connection := connection p; modelsDir := modelsDir p;
       verbose := verbose p; relationsFile := relationsFile p; indent := indent p;
       typescript := typescript p; includeForeignKeys := includeForeignKeys p;
       camelCase := true |}
  else p.

(** What was written on the standard output before [process.exit]. *)
Inductive Printed : Type :=
| Version    (* [pkgVersion] *)
| Usage.     (* the text of [usage] *)

Inductive Parsed : Type :=
| Exited (code : Z) (printed : Printed)
| Done (program : Args).

(** The loop of [parseArgs] from the argument at hand on. *)
Fixpoint parseLoop (program : Args) (args : list string) : Parsed :=
  match args with
  | [] => Done program
  | arg :: rest =>
      if eqs arg "--version" then Exited 0 Version
      else if eqs arg "--help" then Exited 0 Usage
      else
        match valueOption arg with
        | Some set =>
            match rest with
            | [] => Done (set None program)
            | value :: rest' => parseLoop (set (Some value) program) rest'
            end
        | None => parseLoop (flagOption arg program) rest
        end
  end.

Definition parseArgs (args : list string) : Parsed := parseLoop initial args.

(** The options the generator reads. *)
Definition toProgram (p : Args) : Program :=
  Build_Program (typescript p) (includeForeignKeys p) (camelCase p) (indent p).

(** The test of the pattern made of a dot followed by one character or more,
    anywhere in the text. *)
Fixpoint testDotPlus (s : string) : bool :=
  match s with
  | "" => false
  | String c r =>
      match r with
      | String d _ => (Ascii.eqb c "." && JS.dot d) || testDotPlus r
      | "" => false
      end
  end.

Section Startup.
(** [path.resolve], [path.dirname], and whether [fs.accessSync] returns. *)
Variable resolve : string → string.
Variable dirname : string → string.
Variable accessSync : option string → bool.

Definition targetDir (p : Args) : option string :=
  if JS.truthy (modelsDir p) then Some (resolve (JS.toStr (modelsDir p))) else None.

(** [targetAssociationsFile] after the extension is added; [null] is
    converted to a string by the test and by the concatenation. *)
Definition targetAssociationsFile (p : Args) : string :=
  let file := if JS.truthy (relationsFile p)
              then Some (resolve (JS.toStr (relationsFile p))) else None in
  if testDotPlus (JS.toStr file) then JS.toStr file
  else if typescript p then JS.toStr file +:+ ".ts" else JS.toStr file +:+ ".js".

(** What the generator starts with. *)
Record Env : Type := {
  program : Args;
  env_host : string;
  env_schema : string;
  env_targetDir : option string;
  env_targetAssociationsFile : string;
}.

(** A failed check: the message logged before [process.exit(1)]. *)
Inductive Startup : Type :=
| Failed (message : string)
| Ready (env : Env).

(** The statements between [parseArgs] and [generate]. *)
Definition startup (p : Args) : Startup :=
  let c := connection p in
  if negb (JS.truthy (host c)) then Failed "host is required"
  else if negb (JS.truthy (database c)) then Failed "database is required"
  else if negb (JS.truthy (modelsDir p)) then Failed "models directory is required"
  else if negb (JS.truthy (relationsFile p)) then Failed "relations file is required"
  else if negb (accessSync (targetDir p)) then
    Failed ("directory " +:+ String JS.dquote (JS.toStr (targetDir p))
            +:+ String JS.dquote " does not exist")
  else if negb (accessSync (Some (dirname (targetAssociationsFile p)))) then
    Failed (String JS.dquote (targetAssociationsFile p)
            +:+ String JS.dquote " has no parent directory")
  else
    Ready {| program := p;
             env_host := if JS.truthy (host c) then JS.toStr (host c) else "localhost";
             env_schema := if JS.truthy (schema c) then JS.toStr (schema c) else "public";
             env_targetDir := targetDir p;
             env_targetAssociationsFile := targetAssociationsFile p |}.

End Startup.

End Cli.

(** ** Further example data *)

Module Blog.

(** The options of a run that keeps the foreign-key columns. *)
Definition keepingProgram : Program :=
  {| typescript := true; includeForeignKeys := true; camelCase := false;
     indent_option := None |}.

(** An array of integers with a default that is not empty. *)
Definition scoresRow : Row :=
  {| column_name := "scores"; column_default := Some "ARRAY[1, 2]"; is_nullable := "NO";
     data_type := "ARRAY"; character_maximum_length := None;
     udt_name := Some "integer[]"; enum_values := Some "{NULL}"; keys := [None] |}.

(** An enumeration of two labels. *)
Definition statusRow : Row :=
  {| column_name := "status"; column_default := None; is_nullable := "NO";
     data_type := "USER-DEFINED"; character_maximum_length := None;
     udt_name := Some "post_status"; enum_values := Some "{draft,published}";
     keys := [None] |}.

(** The column query of a database whose table session has a uuid column. *)
Definition sessionQuery (t : string) : list Row :=
  if String.eqb t "session" then [Sample.column "token" "uuid" None [None]]
  else Sample.postColumns.

(** What a complete command line is parsed to. *)
Definition blogArgs : Cli.Args :=
  {| Cli.quiet := false;
     Cli.connection := {| Cli.user := None; Cli.database := Some "blog";
                          Cli.password := None; Cli.port := None;
                          Cli.host := Some "db.local"; Cli.schema := None |};
     Cli.modelsDir := Some "models"; Cli.verbose := None;
     Cli.relationsFile := Some "relations"; Cli.indent := None;
     Cli.typescript := false; Cli.includeForeignKeys := false; Cli.camelCase := false |}.

(** A pivot table that links the tables constructor and tag. *)
Definition constructorTagForeignKeys : list FkRow :=
  [ {| constraint_name := "constructor_tag_constructor_id_fkey";
       table_name := "constructor_tag"; fk_column_name := "constructor_id";
       reference_table := "constructor"; reference_column := "id";
       other_table := Some "tag" |};
    {| constraint_name := "constructor_tag_tag_id_fkey";
       table_name := "constructor_tag"; fk_column_name := "tag_id";
       reference_table := "tag"; reference_column := "id";
       other_table := Some "constructor" |} ].

(** The order of names by their bytes, as the collation C compares them. *)
Definition byteOrder : relation string := λ s t, String.leb s t.

#[global] Instance byteOrder_dec (s t : string) : Decision (byteOrder s t) :=
  Is_true_dec (String.leb s t).

End Blog.

(** An argument of the command line that the switch of [parseArgs] treats as
    a flag or skips: it reads no value after it and does not exit. *)
Definition plainArgument (arg : string) : Prop :=
  Cli.valueOption arg = None ∧ arg ≠ "--version" ∧ arg ≠ "--help".

(** * Properties *)

(** ** Strings *)

Lemma append_cons (c : ascii) (s t : string) : String c s +:+ t = String c (s +:+ t).
Proof. reflexivity. Qed.

Lemma append_empty_l (s : string) : "" +:+ s = s.
Proof. reflexivity. Qed.

Lemma append_assoc (s t u : string) : (s +:+ t) +:+ u = s +:+ (t +:+ u).
Proof. induction s as [|c s IH]; [done|]. by rewrite !append_cons, IH. Qed.

Lemma append_empty_r (s : string) : s +:+ "" = s.
Proof. induction s as [|c s IH]; [done|]. by rewrite append_cons, IH. Qed.

Lemma rev_app_append (s t : string) : String.rev_app s t = String.rev s +:+ t.
Proof.
  revert t. induction s as [|c s IH]; intros t; [done|].
  unfold String.rev. simpl. rewrite (IH (String c "")), IH, append_assoc. done.
Qed.

Lemma rev_append (s t : string) : String.rev (s +:+ t) = String.rev t +:+ String.rev s.
Proof.
  induction s as [|c s IH].
  - by rewrite append_empty_l, append_empty_r.
  - rewrite append_cons. unfold String.rev at 1 3. simpl.
    rewrite !rev_app_append, IH, append_assoc. done.
Qed.

Lemma rev_involutive (s : string) : String.rev (String.rev s) = s.
Proof.
  induction s as [|c s IH]; [done|].
  unfold String.rev at 2. simpl. rewrite rev_app_append, rev_append, IH. done.
Qed.

Lemma stripPrefix_append (p s : string) : JS.stripPrefix p (p +:+ s) = Some s.
Proof.
  induction p as [|c p IH]; [by destruct s|].
  rewrite append_cons. simpl. by rewrite Ascii.eqb_refl.
Qed.

Lemma stripPrefix_Some (p s r : string) : JS.stripPrefix p s = Some r → s = p +:+ r.
Proof.
  revert s. induction p as [|c p IH]; intros s; simpl.
  - by intros [= <-].
  - destruct s as [|d s]; [done|].
    destruct (Ascii.eqb_spec c d) as [->|]; [|done].
    intros Hr. by rewrite (IH _ Hr).
Qed.

Lemma stripSuffix_append (q s : string) : JS.stripSuffix q (s +:+ q) = Some s.
Proof.
  unfold JS.stripSuffix. rewrite rev_append, stripPrefix_append. simpl.
  by rewrite rev_involutive.
Qed.

Lemma stripSuffix_Some (q s t : string) : JS.stripSuffix q s = Some t → s = t +:+ q.
Proof.
  unfold JS.stripSuffix. destruct (JS.stripPrefix _ _) as [r|] eqn:Hr; [|done].
  simpl. intros [= <-]. apply stripPrefix_Some in Hr.
  rewrite <- (rev_involutive s), Hr, rev_append, rev_involutive. done.
Qed.

Lemma stripArrayMarker_append (e : string) : stripArrayMarker (e +:+ "[]") = e.
Proof. unfold stripArrayMarker. by rewrite stripSuffix_append. Qed.

Lemma append_nonempty_l (s t : string) : s ≠ "" → s +:+ t ≠ "".
Proof. by destruct s. Qed.

Lemma append_nonempty_r (s t : string) : t ≠ "" → s +:+ t ≠ "".
Proof. destruct s; [done|]. rewrite append_cons. discriminate. Qed.

(** ** The patterns *)

Lemma stripSuffix_cast_quote (b : string) :
  JS.stripSuffix "'" (b +:+ "'::character varying") = None.
Proof.
  unfold JS.stripSuffix. rewrite rev_append.
  replace (String.rev "'::character varying") with "gniyrav retcarahc::'" by reflexivity.
  reflexivity.
Qed.

(** Rule 1 matches the texts that are a quoted body without line terminator,
    alone or followed by the cast marker, and captures the body. *)
Lemma execQuoted_spec (s b : string) :
  execQuoted (Some s) = Some b ↔
  JS.allDot b = true
  ∧ (s = "'" +:+ b +:+ "'" ∨ s = "'" +:+ b +:+ "'::character varying").
Proof.
  unfold execQuoted. simpl. split.
  - destruct s as [|c rest]; [done|].
    destruct (Ascii.eqb_spec c "'") as [->|Hc].
    2:{ destruct c as [[] [] [] [] [] [] [] []]; try done. }
    destruct (JS.stripSuffix "'" rest) as [body|] eqn:H1.
    + apply stripSuffix_Some in H1 as ->.
      destruct (JS.allDot body) eqn:Hd; [|done]. intros [= ->]. split; [done|]. by left.
    + destruct (JS.stripSuffix "'::character varying" rest) as [body|] eqn:H2; [|done].
      apply stripSuffix_Some in H2 as ->.
      destruct (JS.allDot body) eqn:Hd; [|done]. intros [= ->]. split; [done|]. by right.
  - intros [Hd [-> | ->]]; rewrite append_cons, append_empty_l.
    + by rewrite stripSuffix_append, Hd.
    + by rewrite stripSuffix_cast_quote, stripSuffix_append, Hd.
Qed.

(** The quoted-cast patterns capture a body that is not empty, holds no line
    terminator, stands between a quote and the final quote with its cast. *)
Lemma leftmostQuote_Some (t b : string) :
  leftmostQuote t = Some b →
  b ≠ "" ∧ JS.allDot b = true ∧ ∃ before, t = before +:+ "'" +:+ b.
Proof.
  induction t as [|c t IH]; [done|]. simpl.
  destruct (Ascii.eqb_spec c "'") as [->|Hc]; simpl.
  - case_bool_decide as He; simpl.
    + intros Hl. destruct (IH Hl) as (Hb & Hd & before & ->).
      split; [done|]. split; [done|]. exists (String "'" before). by rewrite append_cons.
    + destruct (JS.allDot t) eqn:Hd.
      * intros [= <-]. split; [done|]. split; [done|]. by exists "".
      * intros Hl. destruct (IH Hl) as (Hb & Hd' & before & ->).
        split; [done|]. split; [done|]. exists (String "'" before). by rewrite append_cons.
  - intros Hl. destruct (IH Hl) as (Hb & Hd & before & ->).
    split; [done|]. split; [done|]. exists (String c before). by rewrite append_cons.
Qed.

Lemma execQuotedCast_Some (ty s b : string) :
  execQuotedCast ty (Some s) = Some b →
  b ≠ "" ∧ JS.allDot b = true ∧ ∃ before, s = before +:+ "'" +:+ b +:+ "'::" +:+ ty.
Proof.
  unfold execQuotedCast. simpl.
  destruct (JS.stripSuffix _ s) as [t|] eqn:Hs; [|done].
  apply stripSuffix_Some in Hs as ->. intros Hl.
  destruct (leftmostQuote_Some _ _ Hl) as (Hb & Hd & before & ->).
  split; [done|]. split; [done|]. exists before. by rewrite !append_assoc.
Qed.

(** A text with one quoted body and the cast is matched. *)
Lemma execQuotedCast_simple (ty before b : string) :
  b ≠ "" → JS.allDot b = true →
  (∀ c, c ∈ String.list_ascii_of_string before → c ≠ "'"%char) →
  execQuotedCast ty (Some (before +:+ "'" +:+ b +:+ "'::" +:+ ty)) = Some b.
Proof.
  intros Hb Hd Hbefore. unfold execQuotedCast. simpl.
  replace (before +:+ "'" +:+ b +:+ "'::" +:+ ty)
    with ((before +:+ "'" +:+ b) +:+ ("'::" +:+ ty)) by (by rewrite !append_assoc).
  rewrite stripSuffix_append.
  induction before as [|c before IH].
  - rewrite append_empty_l, append_cons, append_empty_l. simpl.
    rewrite Hd. by rewrite bool_decide_eq_false_2.
  - rewrite append_cons. simpl.
    destruct (Ascii.eqb_spec c "'") as [->|Hc].
    + exfalso. apply (Hbefore "'"%char); [|done]. simpl. by left.
    + simpl. apply IH. intros c' Hc'. apply Hbefore. simpl. by right.
Qed.

Lemma eqs_true (s : string) : eqs s s = true.
Proof. unfold eqs. by apply bool_decide_eq_true_2. Qed.

Lemma eqs_false (s t : string) : s ≠ t → eqs s t = false.
Proof. unfold eqs. by apply bool_decide_eq_false_2. Qed.

(** ** Type classification *)

Lemma getColumnType_fuel_S (fuel : nat) (row : Row) :
  getColumnType_fuel (S fuel) row = getColumnType_body (getColumnType_fuel fuel) row.
Proof. reflexivity. Qed.

(** On an element row the switch never reaches the recursive call. *)
Lemma getColumnType_body_element (self1 self2 : Row → option (Result TypeData)) (e : string) :
  getColumnType_body self1 (elementRow e) = getColumnType_body self2 (elementRow e).
Proof. unfold getColumnType_body. simpl. by repeat case_match. Qed.

Lemma getColumnType_body_element_Some (self : Row → option (Result TypeData)) (e : string) :
  is_Some (getColumnType_body self (elementRow e)).
Proof. unfold getColumnType_body. simpl. repeat case_match; eauto. Qed.

Lemma getColumnType_body_ext (self1 self2 : Row → option (Result TypeData)) (row : Row) :
  (∀ e, self1 (elementRow e) = self2 (elementRow e)) →
  getColumnType_body self1 row = getColumnType_body self2 row.
Proof.
  intros Hself. unfold getColumnType_body.
  destruct (udt_name row) as [u|]; [|done]. by rewrite (Hself (stripArrayMarker u)).
Qed.

Lemma getColumnType_fuel_element (n : nat) (e : string) :
  getColumnType_fuel (S n) (elementRow e) = Some (getColumnType (elementRow e)).
Proof.
  unfold getColumnType. rewrite !getColumnType_fuel_S.
  rewrite (getColumnType_body_element (getColumnType_fuel n) (getColumnType_fuel 1)).
  by destruct (getColumnType_body_element_Some (getColumnType_fuel 1) e) as [r ->].
Qed.

(** Two nested calls are always enough, and the call returns. *)
Lemma getColumnType_fuel_enough (n : nat) (row : Row) :
  getColumnType_fuel (S (S n)) row = Some (getColumnType row).
Proof.
  unfold getColumnType. rewrite !getColumnType_fuel_S.
  rewrite (getColumnType_body_ext (getColumnType_body (getColumnType_fuel n)) (getColumnType_fuel 1)).
  2:{ intros e. rewrite <- !getColumnType_fuel_S. by rewrite !getColumnType_fuel_element. }
  rewrite <- !getColumnType_fuel_S.
  enough (is_Some (getColumnType_fuel 2 row)) as [r ->] by done.
  rewrite getColumnType_fuel_S. unfold getColumnType_body.
  destruct (udt_name row) as [u|].
  - rewrite getColumnType_fuel_element. repeat case_match; eauto.
  - repeat case_match; eauto.
Qed.

(** The unfolding of [getColumnType]. *)
Lemma getColumnType_unfold (row : Row) :
  Some (getColumnType row) = getColumnType_body (λ r, Some (getColumnType r)) row.
Proof.
  rewrite <- (getColumnType_fuel_enough 0), getColumnType_fuel_S.
  apply getColumnType_body_ext. intros e. apply getColumnType_fuel_element.
Qed.

(** Evaluate the comparisons of two string literals. *)
Ltac eval_eqs :=
  repeat match goal with
  | |- context [eqs ?a ?b] =>
      let v := eval vm_compute in (eqs a b) in
      (first [ constr_eq v true | constr_eq v false ]);
      change (eqs a b) with v
  end; cbv beta iota zeta.

Lemma not_supported_neq (t : string) :
  t ∉ supportedTypes →
  Forall (λ s, eqs t s = false) supportedTypes.
Proof.
  intros Hn. apply Forall_forall. intros s Hs. apply eqs_false. intros ->. done.
Qed.

Ltac all_false H :=
  let F := fresh in
  pose proof (not_supported_neq _ H) as F;
  unfold supportedTypes, scalarTypes in F; simpl in F;
  repeat (apply Forall_cons in F as [? F]).

Lemma getColumnType_body_unsupported (self : Row → option (Result TypeData)) (row : Row) :
  data_type row ∉ supportedTypes →
  getColumnType_body self row
  = Some (Throw (Error ("Unhandled data type: " +:+ data_type row))).
Proof.
  intros Hn. all_false Hn. unfold getColumnType_body.
  repeat match goal with E : eqs _ _ = false |- _ => rewrite E; clear E end.
  done.
Qed.

Lemma getColumnType_body_scalar (self : Row → option (Result TypeData)) (row : Row) :
  data_type row ∈ scalarTypes →
  ∃ d, getColumnType_body self row = Some (Ok d) ∧ docType d ∈ scalarKinds.
Proof.
  intros Hin. unfold scalarTypes in Hin.
  repeat (apply elem_of_cons in Hin as [Hin|Hin]);
    try (by apply elem_of_nil in Hin);
    unfold getColumnType_body; rewrite Hin; eval_eqs;
    (eexists; split; [reflexivity|]); simpl;
    unfold scalarKinds; rewrite !elem_of_cons; auto 10.
Qed.

Lemma getColumnType_unsupported (row : Row) :
  data_type row ∉ supportedTypes →
  getColumnType row = Throw (Error ("Unhandled data type: " +:+ data_type row)).
Proof.
  intros Hn. apply (inj Some). rewrite getColumnType_unfold.
  by apply getColumnType_body_unsupported.
Qed.

Lemma getColumnType_scalar (row : Row) :
  data_type row ∈ scalarTypes →
  ∃ d, getColumnType row = Ok d ∧ docType d ∈ scalarKinds.
Proof.
  intros Hin.
  destruct (getColumnType_body_scalar (λ r, Some (getColumnType r)) row Hin) as (d & Hd & Hk).
  exists d. split; [|done]. apply (inj Some). by rewrite getColumnType_unfold.
Qed.

Lemma getColumnType_enum (row : Row) :
  data_type row = "USER-DEFINED" →
  (enum_values row = None → getColumnType row = Throw TypeError) ∧
  (is_Some (enum_values row) → ∃ d, getColumnType row = Ok d ∧ docType d = "string").
Proof.
  intros Hdt.
  pose proof (getColumnType_unfold row) as Hu.
  unfold getColumnType_body in Hu. rewrite Hdt in Hu. revert Hu. eval_eqs. intros Hu.
  split.
  - intros Hev. rewrite Hev in Hu. by injection Hu.
  - intros [ev Hev]. rewrite Hev in Hu. injection Hu as ->. eauto.
Qed.

Lemma getColumnType_array (row : Row) (u : string) :
  data_type row = "ARRAY" → udt_name row = Some u →
  getColumnType row =
    match getColumnType (elementRow (stripArrayMarker u)) with
    | Ok innerArrayType =>
        Ok {| dataType := "ARRAY(DataTypes." +:+ dataType innerArrayType +:+ ")";
              docType := "Array";
              comment := Some u;
              tsType := tsType innerArrayType +:+ "[]" |}
    | Throw e => Throw e
    end.
Proof.
  intros Hdt Hu. apply (inj Some). rewrite getColumnType_unfold.
  unfold getColumnType_body. rewrite Hdt, Hu. eval_eqs.
  by destruct (getColumnType _).
Qed.

Lemma getColumnType_array_no_udt (row : Row) :
  data_type row = "ARRAY" → udt_name row = None → getColumnType row = Throw TypeError.
Proof.
  intros Hdt Hu. apply (inj Some). rewrite getColumnType_unfold.
  unfold getColumnType_body. rewrite Hdt, Hu. by eval_eqs.
Qed.

(** The element row of an array is classified exactly when its name is a
    scalar type. *)
Lemma getColumnType_element (e : string) :
  (e ∈ scalarTypes → ∃ d, getColumnType (elementRow e) = Ok d ∧ docType d ∈ scalarKinds) ∧
  (e ∉ scalarTypes → ∃ x, getColumnType (elementRow e) = Throw x).
Proof.
  split; [apply (getColumnType_scalar (elementRow e))|].
  intros Hn. destruct (decide (e ∈ supportedTypes)) as [Hs|Hs].
  - unfold supportedTypes in Hs. apply elem_of_app in Hs as [?|Hs]; [done|].
    apply elem_of_cons in Hs as [->|Hs].
    { exists TypeError. by apply (getColumnType_enum (elementRow "USER-DEFINED")). }
    apply list_elem_of_singleton in Hs as ->.
    exists TypeError. by apply (getColumnType_array_no_udt (elementRow "ARRAY")).
  - eexists. by apply (getColumnType_unsupported (elementRow e)).
Qed.

(** C3, in the form the code satisfies. Classification returns, with a
    [docType] among the six scalar kinds, exactly for the classifiable rows:
    a scalar type name; USER-DEFINED with its label text; ARRAY whose element
    type name, the udt name without its final square brackets, is a scalar
    type name. Every other row throws. A raw type name outside the supported
    set fails with the error Unhandled data type, and so does an array whose
    element type name is outside it: being ARRAY is not enough. *)
Theorem C3_classification_outcome (row : Row) :
  (classifiable row = true ↔ ∃ d, getColumnType row = Ok d) ∧
  (∀ d, getColumnType row = Ok d → docType d ∈ scalarKinds) ∧
  (data_type row ∉ supportedTypes →
   getColumnType row = Throw (Error ("Unhandled data type: " +:+ data_type row))) ∧
  (∀ u, data_type row = "ARRAY" → udt_name row = Some u →
        stripArrayMarker u ∉ supportedTypes →
        getColumnType row = Throw (Error ("Unhandled data type: " +:+ stripArrayMarker u))).
Proof.
  assert ((classifiable row = true ∧ ∃ d, getColumnType row = Ok d ∧ docType d ∈ scalarKinds)
          ∨ (classifiable row = false ∧ ∃ x, getColumnType row = Throw x)) as Hcases.
  { unfold classifiable. case_bool_decide as Hsc.
    { left. split; [done|]. by apply getColumnType_scalar. }
    destruct (decide (data_type row = "USER-DEFINED")) as [Hdt|Hdt].
    { rewrite Hdt. eval_eqs. destruct (getColumnType_enum row Hdt) as [Hnone Hsome].
      destruct (enum_values row) as [ev|] eqn:Hev.
      - left. split; [by apply bool_decide_eq_true_2|].
        destruct Hsome as (d & Hd & Hk); [done|]. exists d. split; [done|].
        rewrite Hk. unfold scalarKinds. rewrite !elem_of_cons. auto.
      - right. split; [by apply bool_decide_eq_false_2; intros [? ?]|]. eauto. }
    rewrite (eqs_false _ _ Hdt).
    destruct (decide (data_type row = "ARRAY")) as [Har|Har].
    { rewrite Har. eval_eqs. destruct (udt_name row) as [u|] eqn:Hu.
      - rewrite (getColumnType_array row u Har Hu).
        destruct (getColumnType_element (stripArrayMarker u)) as [Hin Hout].
        case_bool_decide as Hel.
        + left. split; [done|]. destruct (Hin Hel) as (d & -> & _).
          eexists. split; [done|]. simpl. unfold scalarKinds. rewrite !elem_of_cons. auto 10.
        + right. split; [done|]. destruct (Hout Hel) as (x & ->). eauto.
      - right. split; [done|]. exists TypeError. by apply getColumnType_array_no_udt. }
    rewrite (eqs_false _ _ Har). right. split; [done|].
    eexists. apply getColumnType_unsupported.
    unfold supportedTypes. rewrite elem_of_app, !elem_of_cons, elem_of_nil. tauto. }
  split; [|split; [|split]].
  - destruct Hcases as [[Hc (d & Hd & _)]|[Hc (x & Hx)]]; split; eauto; try congruence.
    intros (d & Hd). congruence.
  - intros d Hd. destruct Hcases as [[_ (d' & Hd' & Hk)]|[_ (x & Hx)]]; congruence.
  - apply getColumnType_unsupported.
  - intros u Har Hu Hel. rewrite (getColumnType_array row u Har Hu).
    by rewrite (getColumnType_unsupported (elementRow (stripArrayMarker u))).
Qed.

(** C9. Classifying an array whose udt name is an element type name followed
    by a pair of square brackets wraps the result of classifying that element
    type name on its own: the storage type is ARRAY(DataTypes.T) for the
    element's storage type T, the TypeScript type is the element's followed
    by brackets, and a failure of the element is the failure of the array. *)
Theorem C9_array_wraps_element (row : Row) (e : string) :
  data_type row = "ARRAY" →
  udt_name row = Some (e +:+ "[]") →
  getColumnType row =
    match getColumnType (elementRow e) with
    | Ok element =>
        Ok {| dataType := "ARRAY(DataTypes." +:+ dataType element +:+ ")";
              docType := "Array";
              comment := Some (e +:+ "[]");
              tsType := tsType element +:+ "[]" |}
    | Throw x => Throw x
    end.
Proof.
  intros Hdt Hu. rewrite (getColumnType_array row _ Hdt Hu).
  by rewrite stripArrayMarker_append.
Qed.

Section DefaultChain.
Context `{Host}.

(** ** The default chain *)

Lemma startsWith_Some (p s : string) :
  JS.startsWith p s = true → ∃ r, s = p +:+ r.
Proof.
  unfold JS.startsWith. intros [r Hr]%bool_decide_eq_true.
  exists r. by apply stripPrefix_Some.
Qed.

(** A text that begins with [nextval(] is not matched by rule 1 and is not
    the text of rule 3. *)
Lemma nextval_not_quoted (t : string) :
  JS.startsWith "nextval(" t = true →
  execQuoted (Some t) = None ∧ t ≠ "now()".
Proof.
  intros [r ->]%startsWith_Some. split; [reflexivity|discriminate].
Qed.

(** The chain sets at most one of its two variables. *)
Lemma defaultChain_exclusive (row : Row) (dataType : string) (v : DefaultValue) (auto : bool) :
  defaultChain row dataType = Ok (v, auto) → auto = true → v = DNull.
Proof.
  unfold defaultChain. intros Hc Ha. subst auto.
  repeat case_match; simplify_eq; try done.
  destruct (RegExp_exec _ _) as [[[?|]|]|]; simplify_eq/=.
Qed.

(** C5, in the form the code satisfies. A default text that begins with
    nextval( and is not taken by the jsonb rule, which is tried earlier and
    is not anchored at the start of the text, sets [isAutoIncrement] and
    leaves [defaultValue] null, whatever the data type of the column. *)
Theorem C5_nextval_is_auto_increment (row : Row) (dataType t : string) :
  column_default row = Some t →
  JS.startsWith "nextval(" t = true →
  execJsonb (Some t) = None →
  defaultChain row dataType = Ok (DNull, true).
Proof.
  intros Hcd Hnv Hjs. destruct (nextval_not_quoted t Hnv) as [Hq Hnow].
  unfold defaultChain. rewrite Hcd, Hq, Hjs.
  rewrite bool_decide_eq_false_2 by congruence.
  unfold testNextval. simpl. by rewrite Hnv.
Qed.

(** C2, in the form the code satisfies. For a column of raw type integer or
    smallint, whose scalar kind is number and storage type INTEGER, a default
    text that is present, not empty, and matched by none of the rules before
    (quoted literal, jsonb cast, now(), nextval prefix) resolves to the
    number [parseInt] reads at the front of the text. *)
Theorem C2_integer_default_is_parseInt (row : Row) (t : string) :
  data_type row = "integer" ∨ data_type row = "smallint" →
  column_default row = Some t →
  t ≠ "" →
  execQuoted (Some t) = None →
  execJsonb (Some t) = None →
  t ≠ "now()" →
  testNextval (Some t) = false →
  ∃ d, getColumnType row = Ok d ∧ docType d = "number" ∧
       defaultChain row (dataType d) = Ok (DNumber (JS.parseInt t), false).
Proof.
  intros Hdt Hcd Hne Hq Hjs Hnow Hnv.
  exists {| dataType := "INTEGER"; docType := "number"; comment := None; tsType := "number" |}.
  split; [|split; [done|]].
  - apply (inj Some). rewrite getColumnType_unfold. unfold getColumnType_body.
    destruct Hdt as [-> | ->]; by eval_eqs.
  - unfold defaultChain. rewrite Hcd, Hq, Hjs, Hnv.
    rewrite bool_decide_eq_false_2 by congruence.
    simpl. eval_eqs. by destruct t.
Qed.

End DefaultChain.

Section Columns.
Context `{Host}.

(** ** The column callback *)

Lemma indexOf_from_spec {A} `{EqDecision A} (x : A) (l : list A) (i : Z) :
  0 ≤ i → (JS.indexOf_from x l i = -1 ↔ x ∉ l) ∧ (JS.indexOf_from x l i = -1 ∨ i ≤ JS.indexOf_from x l i).
Proof.
  revert i. induction l as [|y l IH]; intros i Hi; simpl.
  - split; [|by left]. split; [intros _; apply not_elem_of_nil|done].
  - destruct (decide (y = x)) as [->|Hne].
    + split; [|right; lia]. split; [lia|]. intros []. by left.
    + destruct (IH (i + 1)) as [IH1 IH2]; [lia|]. split.
      * rewrite IH1, not_elem_of_cons. split; [by split|by intros [_ ?]].
      * destruct IH2; [by left|right; lia].
Qed.

Lemma hasKey_spec (row : Row) (k : string) :
  hasKey row k = true ↔ Some k ∈ keys row.
Proof.
  unfold hasKey, JS.indexOf.
  destruct (indexOf_from_spec (Some k) (keys row) 0) as [Hs _]; [done|].
  rewrite negb_true_iff, Z.eqb_neq, Hs. split; [|tauto].
  intros Hnn. by destruct (decide (Some k ∈ keys row)).
Qed.

Lemma hasKey_false (row : Row) (k : string) :
  hasKey row k = false ↔ Some k ∉ keys row.
Proof. rewrite <- hasKey_spec. by destruct (hasKey row k). Qed.

(** What the callback returns when it returns. *)
Lemma columnCallback_Ok (program : Program) (row : Row) (r : option ColumnData) :
  columnCallback program row = Ok r →
  match r with
  | None => includeForeignKeys program = false ∧ Some "FOREIGN KEY" ∈ keys row
  | Some col =>
      (includeForeignKeys program = true ∨ Some "FOREIGN KEY" ∉ keys row) ∧
      field col = column_name row ∧
      isPrimaryKey col = hasKey row "PRIMARY KEY" ∧
      ∃ d, getColumnType row = Ok d ∧ typeData col = d ∧
           defaultChain row (dataType d) = Ok (defaultValue col, autoIncrement col)
  end.
Proof.
  unfold columnCallback.
  destruct (includeForeignKeys program) eqn:Hinc; simpl.
  - destruct (getColumnType row) as [d|]; simpl; [|done].
    destruct (defaultChain row (dataType d)) as [[v a]|] eqn:Hch; simpl; [|done].
    intros [= <-]. simpl. split; [by left|]. split; [done|]. split; [done|]. eauto.
  - destruct (hasKey row "FOREIGN KEY") eqn:Hfk.
    + intros [= <-]. split; [done|]. by apply hasKey_spec.
    + destruct (getColumnType row) as [d|]; simpl; [|done].
      destruct (defaultChain row (dataType d)) as [[v a]|] eqn:Hch; simpl; [|done].
      intros [= <-]. simpl. split; [right; by apply hasKey_false|].
      split; [done|]. split; [done|]. eauto.
Qed.

(** C6. A column the callback produces is in exactly one of three states:
    it has a default value and is not auto-incrementing, it is
    auto-incrementing and has no default value, or it is neither. It is never
    both. *)
Theorem C6_default_and_auto_increment_exclusive (program : Program) (row : Row) (col : ColumnData) :
  columnCallback program row = Ok (Some col) →
  (hasDefault col = true ∧ autoIncrement col = false)
  ∨ (hasDefault col = false ∧ autoIncrement col = true)
  ∨ (hasDefault col = false ∧ autoIncrement col = false).
Proof.
  intros Hcb. apply columnCallback_Ok in Hcb as (_ & _ & _ & d & _ & _ & Hch).
  pose proof (defaultChain_exclusive _ _ _ _ Hch) as Hex.
  unfold hasDefault. destruct (autoIncrement col).
  - rewrite Hex by done. auto.
  - destruct (defaultValue col); auto.
Qed.

(** C7, the code on the input where it departs from the claim. An integer
    column whose default text has no leading integer, here the catalog text
    of DEFAULT -1, a quoted literal cast to integer, is matched by no earlier
    rule; the integer rule then stores what [parseInt] returns, NaN, and the
    column carries a default value instead of none. *)
Theorem C7_integer_default_not_a_number (program : Program) :
  ∃ col,
    columnCallback program
      {| column_name := "balance"; column_default := Some "'-1'::integer";
         is_nullable := "NO"; data_type := "integer";
         character_maximum_length := None; udt_name := Some "integer";
         enum_values := Some "{NULL}"; keys := [None] |} = Ok (Some col)
    ∧ defaultValue col = DNumber JS.NaN
    ∧ hasDefault col = true.
Proof.
  destruct program as [ts inc cc ind].
  destruct inc, cc; (eexists; split; [by cbv|split; reflexivity]).
Qed.

(** The columns kept are those of the rows the callback did not omit. *)
Lemma columnDataOf_Ok (program : Program) (rows : list Row) (cols : list ColumnData) :
  includeForeignKeys program = false →
  columnDataOf program rows = Ok cols →
  Forall2 (λ r col, field col = column_name r ∧ isPrimaryKey col = hasKey r "PRIMARY KEY")
          (filter (λ r, Some "FOREIGN KEY" ∉ keys r) rows) cols.
Proof.
  intros Hinc. unfold columnDataOf. revert cols.
  induction rows as [|r rows IH]; intros cols; simpl.
  - intros [= <-]. constructor.
  - destruct (columnCallback program r) as [oc|] eqn:Hcb; simpl; [|done].
    destruct (mapR (columnCallback program) rows) as [mapped|] eqn:Hm; simpl; [|done].
    intros [= <-]. specialize (IH _ eq_refl).
    apply columnCallback_Ok in Hcb. destruct oc as [col|]; simpl.
    + destruct Hcb as ([?|Hfk] & Hf & Hpk & _); [congruence|].
      rewrite filter_cons_True by done. by constructor.
    + destruct Hcb as [_ Hfk]. rewrite filter_cons_False by (by intros ?). done.
Qed.

Lemma generateTableDefinition_Ok (program : Program) (associations : gmap string (list Assoc))
    (t : string) (rows : list Row) (file : ModelFile) :
  generateTableDefinition program associations t rows = Ok file →
  tableName file = t ∧ columnDataOf program rows = Ok (columns file)
  ∧ (typescript program = false → ts file = None)
  ∧ (typescript program = true →
     ∃ parts, ts file = Some parts
              ∧ typescriptParts program associations t (columns file) = Ok parts).
Proof.
  unfold generateTableDefinition.
  destruct (columnDataOf program rows) as [cols|]; simpl; [|done].
  destruct (typescript program).
  - destruct (typescriptParts program associations t cols) as [parts|] eqn:Hparts; simpl; [|done].
    intros [= <-]. simpl. split; [done|]. split; [done|]. split; [done|].
    intros _. by exists parts.
  - simpl. intros [= <-]. simpl. split; [done|]. split; [done|]. split; [done|]. done.
Qed.

(** With the flag off, a row that is a foreign key is not even classified:
    the columns are those of the list without such rows. *)
Lemma columnDataOf_cons (program : Program) (r : Row) (rows : list Row) :
  columnDataOf program (r :: rows)
  = let* oc := columnCallback program r in
    let* cols := columnDataOf program rows in
    Ok (match oc with Some col => col :: cols | None => cols end).
Proof.
  unfold columnDataOf. simpl.
  destruct (columnCallback program r) as [[col|]|]; simpl; [| |done];
    by destruct (mapR (columnCallback program) rows).
Qed.

Lemma columnDataOf_filter (program : Program) (rows : list Row) :
  includeForeignKeys program = false →
  columnDataOf program rows
  = columnDataOf program (filter (λ r, Some "FOREIGN KEY" ∉ keys r) rows).
Proof.
  intros Hinc. induction rows as [|r rows IH]; [done|].
  destruct (decide (Some "FOREIGN KEY" ∈ keys r)) as [Hfk|Hfk].
  - rewrite filter_cons_False by (by intros ?). rewrite columnDataOf_cons, <- IH.
    unfold columnCallback. rewrite Hinc. apply hasKey_spec in Hfk. rewrite Hfk. simpl.
    by destruct (columnDataOf program rows).
  - rewrite filter_cons_True by done. by rewrite !columnDataOf_cons, IH.
Qed.

(** C10. With the foreign-key flag off, the model generated for a table is
    the one generated from its rows whose constraint types do not contain
    FOREIGN KEY: a row that contains it is omitted, PRIMARY KEY or not, and
    the columns of the file are those of the other rows, in row order.
    Hence, when every primary-key row of the table is also a foreign-key row,
    no column of the model is a primary key. *)
Theorem C10_foreign_key_columns_omitted (program : Program)
    (associations : gmap string (list Assoc)) (t : string) (rows : list Row) :
  includeForeignKeys program = false →
  generateTableDefinition program associations t rows
  = generateTableDefinition program associations t
      (filter (λ r, Some "FOREIGN KEY" ∉ keys r) rows)
  ∧ ∀ file,
      generateTableDefinition program associations t rows = Ok file →
      field <$> columns file
        = column_name <$> filter (λ r, Some "FOREIGN KEY" ∉ keys r) rows
      ∧ ((∀ r, r ∈ rows → Some "PRIMARY KEY" ∈ keys r → Some "FOREIGN KEY" ∈ keys r) →
         Forall (λ col, isPrimaryKey col = false) (columns file)).
Proof.
  intros Hinc. split.
  { unfold generateTableDefinition. by rewrite <- columnDataOf_filter. }
  intros file Hgen. apply generateTableDefinition_Ok in Hgen as (_ & Hcols & _).
  pose proof (columnDataOf_Ok _ _ _ Hinc Hcols) as HF. split.
  - revert HF. generalize (filter (λ r, Some "FOREIGN KEY" ∉ keys r) rows) (columns file).
    intros l k HF. induction HF as [|r col rs cs [Hf _] _ IH]; [done|].
    rewrite !fmap_cons. by rewrite Hf, IH.
  - intros Hpivot.
    assert (Forall (λ r, Some "PRIMARY KEY" ∉ keys r)
              (filter (λ r, Some "FOREIGN KEY" ∉ keys r) rows)) as Hno.
    { apply Forall_forall. intros r [Hfk Hr]%list_elem_of_filter Hpk. apply Hfk. by apply Hpivot. }
    revert HF Hno. generalize (filter (λ r, Some "FOREIGN KEY" ∉ keys r) rows) (columns file).
    intros l k HF. induction HF as [|r col rs cs [_ Hpk] _ IH]; [done|].
    intros Hno. apply Forall_cons in Hno as [Hr Hno]. constructor; [|by apply IH].
    rewrite Hpk. by apply hasKey_false.
Qed.

(** ** The loop over the tables *)

(** The run of the loop over any list of tables: the files of the tables
    before the first one whose definition throws, and that exception. *)
Lemma generateDefinitions_run (program : Program)
    (associations : gmap string (list Assoc)) (columnQuery : string → list Row)
    (tables : list string) :
  let run := generateDefinitions program associations columnQuery tables in
  tableName <$> run.1 `prefix_of` tables
  ∧ Forall (λ file, generateTableDefinition program associations (tableName file)
                      (columnQuery (tableName file)) = Ok file) run.1
  ∧ (run.2 = Ok tt ↔ tableName <$> run.1 = tables)
  ∧ (run.2 = Ok tt
     ↔ Forall (λ t, ∃ file, generateTableDefinition program associations t (columnQuery t)
                            = Ok file) tables)
  ∧ (∀ e, run.2 = Throw e →
       ∃ t after, tables = (tableName <$> run.1) ++ t :: after
                  ∧ generateTableDefinition program associations t (columnQuery t) = Throw e).
Proof.
  induction tables as [|t tables IH]; simpl.
  - split; [done|]. split; [done|]. split; [done|]. split; [done|]. intros e [=].
  - destruct (generateTableDefinition program associations t (columnQuery t)) as [file|e] eqn:Hgen;
      simpl.
    + destruct IH as (Hpre & Hall & Hiff & Hok & Hthrow).
      pose proof (generateTableDefinition_Ok _ _ _ _ _ Hgen) as (Ht & _).
      rewrite Ht. split; [by apply prefix_cons|]. split; [|split; [|split]].
      * constructor; [by rewrite Ht|done].
      * split; [intros Hrun; apply Hiff in Hrun; by f_equal|].
        intros [= Heq]. by apply Hiff.
      * rewrite Hok. split.
        -- intros Hrest. constructor; [by exists file|done].
        -- by intros [_ Hrest]%Forall_cons.
      * intros e Hrun. destruct (Hthrow e Hrun) as (t' & after & Htables & Ht').
        exists t', after. split; [by rewrite Htables at 1|done].
    + split; [apply prefix_nil|]. split; [done|]. split; [done|]. split.
      * split; [done|]. intros [[file Hfile] _]%Forall_cons. congruence.
      * intros e' [= <-]. by exists t, tables.
Qed.

(** C8. The tables of a run are the names of the catalog in the order of
    the query, which is the order of the names: the query sorts by
    table_name and the code keeps the order of the rows. The loop writes the
    files of a prefix of that list, in its order and one per table, each
    being the definition generated for its table. It writes one file for
    every table exactly when no definition throws; when it ends with an
    exception, that is the exception of the table that follows the ones
    written, and no later table has a file. *)
Theorem C8_one_file_per_table_in_name_order (program : Program)
    (associations : gmap string (list Assoc)) (columnQuery : string → list Row)
    (collate : relation string) `{!∀ x y, Decision (collate x y)} (catalog : list string) :
  Total collate →
  let tables := allTablesQuery collate catalog in
  let run := generateDefinitions program associations columnQuery tables in
  tables ≡ₚ catalog
  ∧ Sorted collate tables
  ∧ tableName <$> run.1 `prefix_of` tables
  ∧ Forall (λ file, generateTableDefinition program associations (tableName file)
                      (columnQuery (tableName file)) = Ok file) run.1
  ∧ (run.2 = Ok tt ↔ tableName <$> run.1 = tables)
  ∧ (run.2 = Ok tt
     ↔ Forall (λ t, ∃ file, generateTableDefinition program associations t (columnQuery t)
                            = Ok file) tables)
  ∧ (∀ e, run.2 = Throw e →
       ∃ t after, tables = (tableName <$> run.1) ++ t :: after
                  ∧ generateTableDefinition program associations t (columnQuery t) = Throw e).
Proof.
  intros Htotal tables run.
  split; [apply merge_sort_Permutation|]. split; [by apply Sorted_merge_sort|].
  apply generateDefinitions_run.
Qed.

End Columns.

Section Associations.
Context `{Host}.

(** ** The associations object *)

Lemma lookup_ensure (k k' : string) (m : gmap string (list Assoc)) :
  ensure k m !! k'
  = if decide (k = k')
    then match m !! k with
         | Some l => Some l
         | None => if inherited k then None else Some []
         end
    else m !! k'.
Proof.
  unfold ensure, member. destruct (m !! k) as [l|] eqn:Hk.
  - destruct (decide (k = k')) as [<-|]; done.
  - destruct (inherited k).
    + destruct (decide (k = k')) as [<-|]; done.
    + rewrite lookup_insert. destruct (decide (k = k')); done.
Qed.

Lemma assocsOf_ensure (k t : string) (m : gmap string (list Assoc)) :
  assocsOf (ensure k m) t = assocsOf m t.
Proof.
  unfold assocsOf. rewrite lookup_ensure. destruct (decide (k = t)) as [<-|]; [|done].
  destruct (m !! k); [done|]. by destruct (inherited k).
Qed.

Lemma push_lookup (k : string) (a : Assoc) (m : gmap string (list Assoc)) :
  push k a m = match m !! k with
               | Some l => Ok (<[k := l ++ [a]]> m)
               | None => Throw TypeError
               end.
Proof. unfold push, member. destruct (m !! k); [done|]. by destruct (inherited k). Qed.

Lemma push_Ok (k : string) (a : Assoc) (m m' : gmap string (list Assoc)) :
  push k a m = Ok m' →
  ∀ t, assocsOf m' t = assocsOf m t ++ (if decide (k = t) then [a] else []).
Proof.
  rewrite push_lookup. destruct (m !! k) as [l|] eqn:Hk; [|done]. intros [= <-] t.
  unfold assocsOf. rewrite lookup_insert. destruct (decide (k = t)) as [<-|].
  - by rewrite Hk.
  - by rewrite app_nil_r.
Qed.

Lemma wellKeyed_ensure (k : string) (m : gmap string (list Assoc)) :
  wellKeyed m → wellKeyed (ensure k m).
Proof.
  intros Hm k' Hk'. rewrite lookup_ensure. destruct (decide (k = k')) as [<-|]; [|by apply Hm].
  by rewrite (Hm k Hk'), Hk'.
Qed.

Lemma wellKeyed_push (k : string) (a : Assoc) (m m' : gmap string (list Assoc)) :
  wellKeyed m → push k a m = Ok m' → wellKeyed m'.
Proof.
  intros Hm. rewrite push_lookup. destruct (m !! k) as [l|] eqn:Hk; [|done]. intros [= <-] k' Hk'.
  rewrite lookup_insert. destruct (decide (k = k')) as [<-|]; [|by apply Hm].
  by rewrite (Hm k Hk') in Hk.
Qed.

(** What a row pushes, when its pushes succeed. *)
Lemma register_Ok (row : FkRow) (m m' : gmap string (list Assoc)) :
  register row m = Ok m' →
  ∀ t, assocsOf m' t = assocsOf m t ++ entriesOf t row.
Proof.
  unfold register, entriesOf. destruct (JS.truthy (other_table row)).
  - destruct (push (JS.toStr (other_table row)) _ _) as [m1|] eqn:H1; simpl; [|done].
    intros H2 t. rewrite (push_Ok _ _ _ _ H2), (push_Ok _ _ _ _ H1), !assocsOf_ensure.
    by rewrite <- app_assoc.
  - intros H1 t. by rewrite (push_Ok _ _ _ _ H1), assocsOf_ensure.
Qed.

Lemma register_wellKeyed (row : FkRow) (m m' : gmap string (list Assoc)) :
  wellKeyed m → register row m = Ok m' → wellKeyed m'.
Proof.
  intros Hm. unfold register. destruct (JS.truthy (other_table row)).
  - destruct (push (JS.toStr (other_table row)) _ _) as [m1|] eqn:H1; simpl; [|done].
    intros H2. eapply wellKeyed_push; [|exact H2]. eapply wellKeyed_push; [|exact H1].
    by do 2 apply wellKeyed_ensure.
  - intros H1. eapply wellKeyed_push; [|exact H1]. by apply wellKeyed_ensure.
Qed.

Lemma lookup_ensure_same (k : string) (m : gmap string (list Assoc)) :
  ensure k m !! k = match m !! k with
                    | Some l => Some l
                    | None => if inherited k then None else Some []
                    end.
Proof. rewrite lookup_ensure. by rewrite decide_True. Qed.

Lemma lookup_ensure_ne (k k' : string) (m : gmap string (list Assoc)) :
  k ≠ k' → ensure k m !! k' = m !! k'.
Proof. intros Hne. rewrite lookup_ensure. by rewrite decide_False. Qed.

(** After [ensure], a name that is not inherited has an array. *)
Lemma lookup_ensure_is_Some (k : string) (m : gmap string (list Assoc)) :
  inherited k = false → is_Some (ensure k m !! k).
Proof.
  intros Hk. rewrite lookup_ensure_same, Hk. destruct (m !! k); by eexists.
Qed.

Lemma ensure_is_Some (k k' : string) (m : gmap string (list Assoc)) :
  is_Some (m !! k') → is_Some (ensure k m !! k').
Proof.
  intros [l Hl]. destruct (decide (k = k')) as [<-|Hne].
  - rewrite lookup_ensure_same, Hl. by eexists.
  - rewrite lookup_ensure_ne, Hl by done. by eexists.
Qed.

(** A push after [ensure] fails exactly on an inherited name. *)
Lemma register_hit (row : FkRow) (m : gmap string (list Assoc)) :
  wellKeyed m → hitsPrototype row = true → register row m = Throw TypeError.
Proof.
  intros Hm. unfold hitsPrototype, register. destruct (JS.truthy (other_table row)).
  - set (o := JS.toStr (other_table row)). set (ref := reference_table row).
    intros Hhit. rewrite (push_lookup o).
    pose proof (wellKeyed_ensure ref _ (wellKeyed_ensure o _ Hm)) as Hm2.
    destruct (inherited o) eqn:Ho.
    + by rewrite (Hm2 o Ho).
    + simpl in Hhit.
      destruct (ensure_is_Some ref o (ensure o m) (lookup_ensure_is_Some o m Ho)) as [l ->].
      simpl. rewrite push_lookup, lookup_insert.
      rewrite decide_False by (intros ->; congruence).
      by rewrite (Hm2 ref Hhit).
  - intros Hhit. rewrite push_lookup.
    by rewrite (wellKeyed_ensure _ _ Hm _ Hhit).
Qed.

Lemma register_miss (row : FkRow) (m : gmap string (list Assoc)) :
  hitsPrototype row = false → ∃ m', register row m = Ok m'.
Proof.
  unfold hitsPrototype, register. destruct (JS.truthy (other_table row)).
  - set (o := JS.toStr (other_table row)). set (ref := reference_table row).
    intros [Ho Href]%orb_false_elim. rewrite (push_lookup o).
    destruct (ensure_is_Some ref o (ensure o m) (lookup_ensure_is_Some o m Ho)) as [l ->].
    simpl. rewrite push_lookup, lookup_insert.
    destruct (decide (o = ref)) as [Heq|Hne]; [by eexists|].
    destruct (lookup_ensure_is_Some ref (ensure o m) Href) as [l' ->]. by eexists.
  - intros Ht. rewrite push_lookup.
    destruct (lookup_ensure_is_Some (table_name row) m Ht) as [l ->]. by eexists.
Qed.

Lemma elem_of_entriesOf (row : FkRow) (t : string) (a : Assoc) :
  a ∈ entriesOf t row ↔ contributes row t a.
Proof.
  assert (∀ (k : string) (x : Assoc),
            a ∈ (if decide (k = t) then [x] else []) ↔ t = k ∧ a = x) as Hone.
  { intros k x. destruct (decide (k = t)) as [->|Hne].
    - rewrite list_elem_of_singleton. tauto.
    - rewrite elem_of_nil. split; [done|]. intros [-> _]. done. }
  unfold entriesOf, contributes. destruct (other_table row) as [[|c o]|]; simpl.
  - apply Hone.
  - rewrite elem_of_app, !Hone. tauto.
  - apply Hone.
Qed.

Lemma foldR_associationCallback (program : Program) (rows : list FkRow)
    (st st' : list string * gmap string (list Assoc)) :
  foldR (associationCallback program) rows st = Ok st' →
  st'.1 = st.1 ++ (relationCode program <$> rows)
  ∧ (∀ t, assocsOf st'.2 t = assocsOf st.2 t ++ concat (entriesOf t <$> rows))
  ∧ (wellKeyed st.2 → wellKeyed st'.2).
Proof.
  revert st. induction rows as [|row rows IH]; intros st; simpl.
  - intros [= <-]. split; [by rewrite app_nil_r|]. split; [|done].
    intros t. by rewrite app_nil_r.
  - unfold associationCallback at 1.
    destruct (register row st.2) as [m1|] eqn:Hreg; simpl; [|done].
    intros Hfold. destruct (IH _ Hfold) as (H1 & H2 & H3). simpl in *. split.
    + by rewrite H1, <- app_assoc.
    + split.
      * intros t. by rewrite H2, (register_Ok _ _ _ Hreg), <- app_assoc.
      * intros Hm. apply H3. by eapply register_wellKeyed.
Qed.

Lemma foldR_associationCallback_hit (program : Program) (rows : list FkRow)
    (st : list string * gmap string (list Assoc)) :
  wellKeyed st.2 →
  Exists (λ r, hitsPrototype r = true) rows →
  foldR (associationCallback program) rows st = Throw TypeError.
Proof.
  intros Hm Hex. revert st Hm. induction Hex as [row rows Hhit|row rows _ IH]; intros st Hm; simpl.
  - unfold associationCallback. by rewrite (register_hit _ _ Hm Hhit).
  - unfold associationCallback at 1.
    destruct (hitsPrototype row) eqn:Hrow.
    + by rewrite (register_hit _ _ Hm Hrow).
    + destruct (register_miss row st.2 Hrow) as [m1 Hreg]. rewrite Hreg. simpl.
      apply IH. simpl. by eapply register_wellKeyed.
Qed.

Lemma foldR_associationCallback_miss (program : Program) (rows : list FkRow)
    (st : list string * gmap string (list Assoc)) :
  Forall (λ r, hitsPrototype r = false) rows →
  ∃ st', foldR (associationCallback program) rows st = Ok st'.
Proof.
  intros Hall. revert st. induction Hall as [|row rows Hrow _ IH]; intros st; simpl; [eauto|].
  unfold associationCallback at 1.
  destruct (register_miss row st.2 Hrow) as [m1 ->]. simpl. apply IH.
Qed.

Lemma wellKeyed_empty : wellKeyed ∅.
Proof. intros k _. apply lookup_empty. Qed.

(** The statements are those of the rows, in order, and the array of [t]
    holds what the rows push on it, in order. *)
Lemma generateAssociations_Ok (program : Program) (rows : list FkRow)
    (code : list string) (associations : gmap string (list Assoc)) :
  generateAssociations program rows = Ok (code, associations) →
  code = relationCode program <$> rows
  ∧ (∀ t, assocsOf associations t = concat (entriesOf t <$> rows))
  ∧ wellKeyed associations.
Proof.
  intros Hgen. apply foldR_associationCallback in Hgen as (H1 & H2 & H3). simpl in *.
  split; [done|]. split; [|apply H3, wellKeyed_empty].
  intros t. rewrite H2. unfold assocsOf at 1. by rewrite lookup_empty.
Qed.

Lemma elem_of_concat {A} (x : A) (ls : list (list A)) :
  x ∈ concat ls ↔ ∃ l, x ∈ l ∧ l ∈ ls.
Proof.
  induction ls as [|l ls IH]; simpl.
  - rewrite elem_of_nil. split; [done|]. intros (l & _ & Hl). by apply elem_of_nil in Hl.
  - rewrite elem_of_app, IH. split.
    + intros [Hx|(l' & Hx & Hl')]; [exists l; split; [done|by left]|].
      exists l'. split; [done|by right].
    + intros (l' & Hx & [->|Hl']%elem_of_cons); [by left|]. right. by exists l'.
Qed.

Lemma generateAssociations_spec (program : Program) (rows : list FkRow)
    (code : list string) (associations : gmap string (list Assoc)) :
  generateAssociations program rows = Ok (code, associations) →
  code = relationCode program <$> rows
  ∧ ∀ t a, a ∈ assocsOf associations t ↔ ∃ row, row ∈ rows ∧ contributes row t a.
Proof.
  intros (Hcode & Hassoc & _)%generateAssociations_Ok. split; [done|].
  intros t a. rewrite Hassoc, elem_of_concat. split.
  - intros (l & Ha & (row & -> & Hrow)%list_elem_of_fmap). exists row. split; [done|].
    by apply elem_of_entriesOf.
  - intros (row & Hrow & Hc). exists (entriesOf t row). split; [by apply elem_of_entriesOf|].
    by apply list_elem_of_fmap_2.
Qed.

(** [generateAssociations] throws exactly when a row names an inherited
    property where it pushes, and then it throws a [TypeError]. *)
Lemma generateAssociations_outcome (program : Program) (rows : list FkRow) :
  (Exists (λ r, hitsPrototype r = true) rows →
   generateAssociations program rows = Throw TypeError)
  ∧ (Forall (λ r, hitsPrototype r = false) rows →
     ∃ code associations, generateAssociations program rows = Ok (code, associations)).
Proof.
  split.
  - intros Hex. by apply foldR_associationCallback_hit; [apply wellKeyed_empty|].
  - intros Hall. destruct (foldR_associationCallback_miss program rows ([], ∅) Hall)
      as [[code associations] Hst]. by exists code, associations.
Qed.

Lemma hits_Exists_or_Forall (rows : list FkRow) :
  Exists (λ r, hitsPrototype r = true) rows ∨ Forall (λ r, hitsPrototype r = false) rows.
Proof.
  induction rows as [|row rows [IH|IH]].
  - right. constructor.
  - left. by constructor 2.
  - destruct (hitsPrototype row) eqn:Hrow; [left; by constructor|right; by constructor].
Qed.

(** C1. [generateAssociations] throws a TypeError, and so registers nothing
    at all, exactly when some row names, where it pushes, a property that
    [associations] inherits from [Object.prototype]: for a row whose
    [other_table] is set, when the other table or the referenced table is
    called constructor, toString or the like. When no row does, it returns,
    and for every row whose [other_table] is set it has left a many-to-many
    entry for the referenced table under the other table and one for the
    other table under the referenced table; the statement emitted for the
    row is a belongsToMany through the model of the owning table; every
    entry that is not many-to-many comes from a row without [other_table],
    so the row registers no belongsTo; and every many-to-many entry has its
    mirror entry. *)
Theorem C1_symmetric_pair_unless_inherited_name (program : Program) (rows : list FkRow) :
  (generateAssociations program rows = Throw TypeError
   ↔ Exists (λ r, hitsPrototype r = true) rows)
  ∧ (Forall (λ r, hitsPrototype r = false) rows →
     ∃ code associations,
       generateAssociations program rows = Ok (code, associations)
       ∧ (∀ row o, row ∈ rows → other_table row = Some o → o ≠ "" →
            let ref := reference_table row in
            {| manyToMany := true; model := toPascalCase ref; fileName := ref |}
              ∈ assocsOf associations o
            ∧ {| manyToMany := true; model := toPascalCase o; fileName := o |}
              ∈ assocsOf associations ref
            ∧ relationCode program row ∈ code
            ∧ relationCode program row
              = relationComment program row +:+ JS.newline +:+ tab program 1 +:+ "models."
                +:+ toPascalCase ref +:+ ".belongsToMany(models." +:+ toPascalCase o
                +:+ ", { through: models." +:+ toPascalCase (table_name row)
                +:+ ", foreignKey: '" +:+ fk_column_name row +:+ "' });")
       ∧ (∀ t a, a ∈ assocsOf associations t → manyToMany a = false →
            ∃ r, r ∈ rows ∧ JS.truthy (other_table r) = false ∧ t = table_name r
                 ∧ a = {| manyToMany := false; model := toPascalCase (reference_table r);
                          fileName := reference_table r |})
       ∧ (∀ t a, a ∈ assocsOf associations t → manyToMany a = true →
            {| manyToMany := true; model := toPascalCase t; fileName := t |}
              ∈ assocsOf associations (fileName a))).
Proof.
  destruct (generateAssociations_outcome program rows) as [Hhit Hmiss]. split.
  { split; [|exact Hhit]. intros Hthrow.
    destruct (hits_Exists_or_Forall rows) as [Hex|Hall]; [done|].
    destruct (Hmiss Hall) as (code & associations & Hok). congruence. }
  intros Hall. destruct (Hmiss Hall) as (code & associations & Hok).
  exists code, associations. split; [done|].
  destruct (generateAssociations_spec program rows code associations Hok) as [Hcode Hassoc].
  split; [|split].
  - intros row o Hrow Ho Hne ref. subst ref.
    assert (JS.truthy (Some o) = true) as Htruthy by (by destruct o).
    split; [|split; [|split]].
    + apply Hassoc. exists row. split; [done|]. unfold contributes. rewrite Ho, Htruthy. by left.
    + apply Hassoc. exists row. split; [done|]. unfold contributes. rewrite Ho, Htruthy. by right.
    + rewrite Hcode. by apply list_elem_of_fmap_2.
    + unfold relationCode. rewrite Ho, Htruthy. reflexivity.
  - intros t a [r [Hr Hc]]%Hassoc Hm. exists r. split; [done|].
    unfold contributes in Hc. destruct (other_table r) as [o'|]; [|by destruct Hc].
    destruct (JS.truthy (Some o')); [|by destruct Hc].
    destruct Hc as [[_ ->]|[_ ->]]; done.
  - intros t a [r [Hr Hc]]%Hassoc Hm. apply Hassoc. exists r. split; [done|].
    unfold contributes in *. destruct (other_table r) as [o'|]; [|by destruct Hc as [_ ->]].
    destruct (JS.truthy (Some o')); [|by destruct Hc as [_ ->]].
    destruct Hc as [[-> ->]|[-> ->]]; simpl; [by right|by left].
Qed.

End Associations.

Section Deduplication.
Context `{Host}.

(** ** One block per model *)

Lemma includeCallback_dedups : dedups includeCallback.
Proof.
  intros seen ass r. unfold includeCallback. case_bool_decide; [by intros [= <-]|].
  intros [= <-]. done.
Qed.

Lemma kept_line (s t : string) : t ≠ "" → kept (BString (s +:+ t)) = true.
Proof.
  intros Ht. pose proof (append_nonempty_r s t Ht) as Hne.
  simpl. by destruct (s +:+ t).
Qed.

Lemma instanceCallback_dedups (program : Program) : dedups (instanceCallback program).
Proof.
  intros seen ass r. unfold instanceCallback. case_bool_decide; [by intros [= <-]|].
  destruct (manyToMany ass).
  - destruct (lowerFirst (pluralize (model ass))); simpl; [|done].
    destruct (lowerFirst (singularize (model ass))); simpl; [|done].
    intros [= <-]. done.
  - destruct (lowerFirst (model ass)) as [property|]; simpl; [|done].
    intros [= <-]. split; [|done]. simpl fst. apply kept_line.
    apply append_nonempty_r, append_nonempty_l. done.
Qed.

Lemma mapSeen_blocksFor (callback : gset string → Assoc → Result (Block * gset string))
    (target : string) (l : list Assoc) (seen : gset string) (blocks : list Block) :
  dedups callback →
  mapSeen callback seen l = Ok blocks →
  length blocks = length l
  ∧ length (blocksFor target l blocks)
    = (if bool_decide ((target ∉ seen) ∧ target ∈ (model <$> l)) then 1 else 0)%nat.
Proof.
  intros Hcb. revert seen blocks. induction l as [|ass l IH]; intros seen blocks; simpl.
  - intros [= <-]. split; [done|]. simpl. rewrite bool_decide_eq_false_2; [done|].
    intros [_ Hin]. by apply elem_of_nil in Hin.
  - destruct (callback seen ass) as [r|] eqn:Hr; simpl; [|done].
    destruct (mapSeen callback r.2 l) as [blocks'|] eqn:Hm; simpl; [|done].
    intros [= <-]. destruct (IH _ _ Hm) as [Hlen Hcount]. split; [simpl; by rewrite Hlen|].
    simpl. specialize (Hcb _ _ _ Hr). unfold eqs.
    destruct (decide (model ass ∈ seen)) as [Hseen|Hseen].
    + (* the model was seen before: the empty string, dropped *)
      rewrite bool_decide_eq_true_2 in Hcb by done. subst r. simpl in *.
      rewrite andb_false_r, Hcount.
      apply (f_equal (λ b : bool, if b then 1%nat else 0%nat)), bool_decide_ext.
      rewrite elem_of_cons. split; [tauto|].
      intros [Hns [->|?]]; done.
    + rewrite bool_decide_eq_false_2 in Hcb by done.
      destruct Hcb as [Hkept Hr2]. rewrite Hkept, andb_true_r.
      destruct (decide (model ass = target)) as [Hm'|Hm'].
      * (* the first association to [target]: its block is the only one *)
        rewrite bool_decide_eq_true_2 by done. simpl.
        rewrite Hcount, Hr2. rewrite bool_decide_eq_false_2.
        2:{ intros [Hns _]. apply Hns, elem_of_union_l, elem_of_singleton. done. }
        rewrite bool_decide_eq_true_2; [done|]. split; [congruence|]. rewrite <- Hm'. by left.
      * rewrite bool_decide_eq_false_2 by done. rewrite Hcount, Hr2.
        apply (f_equal (λ b : bool, if b then 1%nat else 0%nat)), bool_decide_ext.
        rewrite elem_of_cons.
        split.
        -- intros [Hns Hin]. split; [|tauto]. intros ?. by apply Hns, elem_of_union_r.
        -- intros [Hns [?|Hin]]; [congruence|]. split; [|done].
           intros [?%elem_of_singleton|?]%elem_of_union; [congruence|done].
Qed.

(** Two rows without a pivot, from the same table to the same table, leave
    two entries for the same model. *)
Lemma two_rows_two_entries (program : Program) (before between after : list FkRow)
    (r1 r2 : FkRow) (code : list string) (associations : gmap string (list Assoc)) :
  table_name r2 = table_name r1 →
  reference_table r2 = reference_table r1 →
  JS.truthy (other_table r1) = false →
  JS.truthy (other_table r2) = false →
  generateAssociations program (before ++ r1 :: between ++ r2 :: after)
  = Ok (code, associations) →
  (2 ≤ length (filter (λ a, model a = toPascalCase (reference_table r1))
                 (assocsOf associations (table_name r1))))%nat.
Proof.
  intros Ht Hr Hf1 Hf2 (_ & Hassoc & _)%generateAssociations_Ok.
  rewrite Hassoc, fmap_app, concat_app, fmap_cons, concat_cons.
  rewrite fmap_app, concat_app, fmap_cons, concat_cons.
  assert (∀ r, table_name r = table_name r1 → reference_table r = reference_table r1 →
               JS.truthy (other_table r) = false →
               entriesOf (table_name r1) r
               = [ {| manyToMany := false; model := toPascalCase (reference_table r1);
                      fileName := reference_table r1 |} ]) as Hone.
  { intros r Htr Hrr Hfr. unfold entriesOf. rewrite Hfr, Htr, Hrr. by rewrite decide_True. }
  rewrite (Hone r1), (Hone r2) by done.
  rewrite !filter_app, !length_app, !filter_cons_True by done. simpl. lia.
Qed.

(** C4, in the form the code satisfies. In TypeScript mode, when two rows of
    the foreign-key query go from the same table to the same referenced table
    with no [other_table], the associations that [generateAssociations]
    returns hold at least two entries for the target model under the table,
    and the generated file keeps exactly one import block and exactly one
    instance block for it. *)
Theorem C4_typescript_one_block_per_target (program : Program)
    (before between after : list FkRow) (r1 r2 : FkRow)
    (code : list string) (associations : gmap string (list Assoc))
    (columns : list Row) (file : ModelFile) :
  typescript program = true →
  table_name r2 = table_name r1 →
  reference_table r2 = reference_table r1 →
  JS.truthy (other_table r1) = false →
  JS.truthy (other_table r2) = false →
  generateAssociations program (before ++ r1 :: between ++ r2 :: after)
  = Ok (code, associations) →
  let l := assocsOf associations (table_name r1) in
  let target := toPascalCase (reference_table r1) in
  generateTableDefinition program associations (table_name r1) columns = Ok file →
  (2 ≤ length (filter (λ a, model a = target) l))%nat
  ∧ ∃ parts includeBlocks instanceBlocks,
      ts file = Some parts
      ∧ includeMap l = Ok includeBlocks
      ∧ includeCode parts = linesOf includeBlocks
      ∧ length (blocksFor target l includeBlocks) = 1%nat
      ∧ instanceMap program l = Ok instanceBlocks
      ∧ instanceCode parts = linesOf instanceBlocks
      ∧ length (blocksFor target l instanceBlocks) = 1%nat.
Proof.
  intros Hts Ht Hr Hf1 Hf2 Hassoc l target Hgen.
  pose proof (two_rows_two_entries program before between after r1 r2 code associations
                Ht Hr Hf1 Hf2 Hassoc) as Htwo.
  fold l target in Htwo. split; [done|].
  assert (target ∈ (model <$> l)) as Hin.
  { destruct (filter (λ a, model a = target) l) as [|a ?] eqn:Hfl; [simpl in Htwo; lia|].
    assert (a ∈ filter (λ a, model a = target) l) as [Ha Hal]%list_elem_of_filter
      by (rewrite Hfl; by left).
    rewrite <- Ha. by apply list_elem_of_fmap_2. }
  assert (associations !! table_name r1 = Some l) as Hlookup.
  { subst l. unfold assocsOf in *. destruct (associations !! table_name r1); [done|].
    by apply elem_of_nil in Hin. }
  apply generateTableDefinition_Ok in Hgen as (_ & _ & _ & Hparts).
  destruct (Hparts Hts) as (parts & Hfile & Hp). clear Hparts.
  unfold typescriptParts, member in Hp. rewrite Hlookup in Hp.
  destruct (instanceMap program l) as [instanceBlocks|] eqn:Hinst; simpl in Hp; [|done].
  destruct (includeMap l) as [includeBlocks|] eqn:Hincl; simpl in Hp; [|done].
  injection Hp as <-. eexists _, includeBlocks, instanceBlocks.
  split; [exact Hfile|]. simpl.
  destruct (mapSeen_blocksFor _ target l ∅ _ includeCallback_dedups Hincl) as [_ Hc1].
  destruct (mapSeen_blocksFor _ target l ∅ _ (instanceCallback_dedups program) Hinst) as [_ Hc2].
  rewrite bool_decide_eq_true_2 in Hc1 by (split; [apply not_elem_of_empty|done]).
  rewrite bool_decide_eq_true_2 in Hc2 by (split; [apply not_elem_of_empty|done]).
  done.
Qed.

End Deduplication.

(** * The theorems on examples *)


(** C1 on two pivot tables: constructor_tag, which links a table named
    constructor, and post_tag. *)
Lemma C1_pivot_witness :
  generateAssociations (H := Sample.host) Sample.typescriptProgram
    Blog.constructorTagForeignKeys = Throw TypeError
  ∧ ∃ code associations,
      generateAssociations (H := Sample.host) Sample.typescriptProgram
        Sample.postTagForeignKeys = Ok (code, associations)
      ∧ {| manyToMany := true; model := "Post"; fileName := "post" |}
        ∈ assocsOf associations "tag"
      ∧ {| manyToMany := true; model := "Tag"; fileName := "tag" |}
        ∈ assocsOf associations "post".
Proof.
  split.
  - apply (C1_symmetric_pair_unless_inherited_name (H := Sample.host)
             Sample.typescriptProgram Blog.constructorTagForeignKeys).
    apply Exists_cons_hd. reflexivity.
  - destruct (C1_symmetric_pair_unless_inherited_name (H := Sample.host)
                Sample.typescriptProgram Sample.postTagForeignKeys)
      as (_ & Hok).
    destruct Hok as (code & associations & Hgen & Hpair & _).
    + repeat (apply Forall_cons_2; [reflexivity|]). apply Forall_nil_2.
    + exists code, associations. split; [exact Hgen|].
      destruct (Hpair {| constraint_name := "post_tag_post_id_fkey"; table_name := "post_tag";
                         fk_column_name := "post_id"; reference_table := "post";
                         reference_column := "id"; other_table := Some "tag" |} "tag")
        as (H1 & H2 & _).
      * apply list_elem_of_here.
      * reflexivity.
      * discriminate.
      * split; [exact H1|exact H2].
Defined.

(** C2 as stated fails on a numeric column: its scalar kind is number, its
    default text 42 is matched by no earlier rule, and it gets no default. *)
Lemma C2_numeric_default_dropped :
  let row := Sample.column "price" "numeric" (Some "42") [None] in
  ∃ d col,
    getColumnType row = Ok d ∧ docType d = "number"
    ∧ execQuoted (column_default row) = None
    ∧ execJsonb (column_default row) = None
    ∧ column_default row ≠ Some "now()"
    ∧ testNextval (column_default row) = false
    ∧ dataType d ≠ "BOOLEAN"
    ∧ columnCallback (H := Sample.host) Sample.typescriptProgram row = Ok (Some col)
    ∧ defaultValue col = DNull.
Proof.
  do 2 eexists. split; [vm_compute; reflexivity|].
  repeat split; try reflexivity; discriminate.
Qed.

(** C2 on an integer column with default 42. *)
Lemma C2_integer_witness :
  ∃ d, getColumnType (Sample.column "stock" "integer" (Some "42") [None]) = Ok d
       ∧ docType d = "number"
       ∧ defaultChain (H := Sample.host) (Sample.column "stock" "integer" (Some "42") [None])
           (dataType d) = Ok (DNumber (JS.Int 42), false).
Proof.
  apply (C2_integer_default_is_parseInt (H := Sample.host)
           (Sample.column "stock" "integer" (Some "42") [None]) "42").
  - left. reflexivity.
  - reflexivity.
  - discriminate.
  - reflexivity.
  - reflexivity.
  - discriminate.
  - reflexivity.
Defined.

(** C3 as stated fails on an array of uuid: ARRAY is a supported type name and
    the element type name is given, yet classification throws. *)
Lemma C3_array_of_unsupported_element_throws :
  let row := {| column_name := "ids"; column_default := None; is_nullable := "NO";
                data_type := "ARRAY"; character_maximum_length := None;
                udt_name := Some "uuid[]"; enum_values := Some "{NULL}"; keys := [None] |} in
  data_type row ∈ supportedTypes
  ∧ is_Some (udt_name row)
  ∧ getColumnType row = Throw (Error "Unhandled data type: uuid").
Proof.
  split; [|split; [by eexists|reflexivity]].
  simpl. unfold supportedTypes. rewrite elem_of_app, !elem_of_cons. auto.
Qed.

(** C4 as stated fails in JavaScript mode: the file of a table with two
    foreign keys to the same table has no association block at all. *)
Lemma C4_javascript_file_has_no_association_block :
  ∃ code associations file,
    generateAssociations (H := Sample.host) Sample.javascriptProgram Sample.postForeignKeys
    = Ok (code, associations)
    ∧ generateTableDefinition (H := Sample.host) Sample.javascriptProgram associations
        "post" Sample.postColumns = Ok file
    ∧ associationLines file = [].
Proof.
  do 3 eexists. split; [vm_compute; reflexivity|].
  split; [vm_compute; reflexivity|reflexivity].
Qed.

(** C4 on the table post with two foreign keys to category. *)
Lemma C4_typescript_witness :
  ∃ code associations file,
    generateAssociations (H := Sample.host) Sample.typescriptProgram Sample.postForeignKeys
    = Ok (code, associations)
    ∧ generateTableDefinition (H := Sample.host) Sample.typescriptProgram associations
        "post" Sample.postColumns = Ok file
    ∧ associationLines file
      = [ "import { Category } from './category';";
          JS.tabChar +:+ "category: Category | null" ]
    ∧ ∃ parts includeBlocks instanceBlocks,
        ts file = Some parts
        ∧ includeCode parts = linesOf includeBlocks
        ∧ length (blocksFor "Category"
                    [ {| manyToMany := false; model := "Category"; fileName := "category" |};
                      {| manyToMany := false; model := "Category"; fileName := "category" |} ]
                    includeBlocks) = 1%nat
        ∧ instanceCode parts = linesOf instanceBlocks
        ∧ length (blocksFor "Category"
                    [ {| manyToMany := false; model := "Category"; fileName := "category" |};
                      {| manyToMany := false; model := "Category"; fileName := "category" |} ]
                    instanceBlocks) = 1%nat.
Proof.
  exists (relationCode (H := Sample.host) Sample.typescriptProgram <$> Sample.postForeignKeys).
  do 2 eexists. split; [vm_compute; reflexivity|].
  match goal with |- generateTableDefinition _ ?a _ _ = _ ∧ _ => set (associations := a) end.
  split; [vm_compute; reflexivity|]. split; [reflexivity|].
  match goal with |- context [ts ?f = _] =>
    destruct (C4_typescript_one_block_per_target (H := Sample.host) Sample.typescriptProgram
                [] [] []
                {| constraint_name := "post_category_id_fkey"; table_name := "post";
                   fk_column_name := "category_id"; reference_table := "category";
                   reference_column := "id"; other_table := None |}
                {| constraint_name := "post_second_category_id_fkey"; table_name := "post";
                   fk_column_name := "second_category_id"; reference_table := "category";
                   reference_column := "id"; other_table := None |}
                (relationCode (H := Sample.host) Sample.typescriptProgram
                   <$> Sample.postForeignKeys)
                associations Sample.postColumns f)
      as (_ & parts & includeBlocks & instanceBlocks & Hts & _ & Hinc & Hn1 & _ & Hins & Hn2)
  end.
  - reflexivity.
  - reflexivity.
  - reflexivity.
  - reflexivity.
  - reflexivity.
  - vm_compute. reflexivity.
  - vm_compute. reflexivity.
  - exists parts, includeBlocks, instanceBlocks.
    split; [exact Hts|]. split; [exact Hinc|]. split; [exact Hn1|]. split; [exact Hins|exact Hn2].
Defined.

(** C5 as stated fails on a text that begins with nextval( and ends in a
    quoted literal cast to jsonb: the jsonb rule takes it, a literal default
    is stored and the column is not auto-incrementing. *)
Lemma C5_nextval_text_taken_by_jsonb_rule :
  let row := Sample.column "id" "integer" (Some "nextval('a_seq'::regclass) || '{}'::jsonb") [None] in
  JS.startsWith "nextval(" (JS.toStr (column_default row)) = true
  ∧ ∃ col, columnCallback (H := Sample.host) Sample.typescriptProgram row = Ok (Some col)
           ∧ autoIncrement col = false
           ∧ defaultValue col = DString "a_seq'::regclass) || '{}".
Proof. split; [reflexivity|]. eexists. split; [vm_compute; reflexivity|]. by split. Qed.

(** C5 on the text of the claim. *)
Lemma C5_nextval_witness :
  defaultChain (H := Sample.host)
    (Sample.column "id" "integer" (Some "nextval('foo_id_seq')") [Some "PRIMARY KEY"])
    "INTEGER" = Ok (DNull, true).
Proof.
  apply (C5_nextval_is_auto_increment (H := Sample.host)
           (Sample.column "id" "integer" (Some "nextval('foo_id_seq')") [Some "PRIMARY KEY"])
           "INTEGER" "nextval('foo_id_seq')").
  - reflexivity.
  - reflexivity.
  - reflexivity.
Defined.

(** C6 on a serial primary key. *)
Lemma C6_serial_column_witness :
  ∃ col,
    columnCallback (H := Sample.host) Sample.typescriptProgram
      (Sample.column "id" "integer" (Some "nextval('post_id_seq'::regclass)")
         [Some "PRIMARY KEY"]) = Ok (Some col)
    ∧ ((hasDefault col = true ∧ autoIncrement col = false)
       ∨ (hasDefault col = false ∧ autoIncrement col = true)
       ∨ (hasDefault col = false ∧ autoIncrement col = false)).
Proof.
  eexists. split; [vm_compute; reflexivity|].
  apply (C6_default_and_auto_increment_exclusive (H := Sample.host) Sample.typescriptProgram
           (Sample.column "id" "integer" (Some "nextval('post_id_seq'::regclass)")
              [Some "PRIMARY KEY"])).
  vm_compute. reflexivity.
Defined.

(** Any two names compare one way or the other in byte order. *)
Lemma byteOrder_total : Total Blog.byteOrder.
Proof.
  intros s t. unfold Blog.byteOrder.
  destruct (String.leb_total s t) as [Hle|Hle]; rewrite Hle; [by left|by right].
Qed.

(** C8 as stated fails on a catalog that holds tag, session and post in this
    order, session having a uuid column: the tables are visited in the order
    of their names, post, session, tag, which is alphabetical; and the run
    writes one file for three tables, that of post, before it stops at
    session. *)
Lemma C8_name_order_and_run_cut_short :
  let tables := allTablesQuery Blog.byteOrder ["tag"; "session"; "post"] in
  let run := generateDefinitions (H := Sample.host) Sample.typescriptProgram ∅
               Blog.sessionQuery tables in
  tables = ["post"; "session"; "tag"]
  ∧ tableName <$> run.1 = ["post"]
  ∧ run.2 = Throw (Error "Unhandled data type: uuid").
Proof. vm_compute. by repeat split. Qed.

(** C8 on a catalog that holds tag before post, in byte order. *)
Lemma C8_name_order_witness :
  let run := generateDefinitions (H := Sample.host) Sample.typescriptProgram ∅
               (λ _, Sample.postColumns) (allTablesQuery Blog.byteOrder ["tag"; "post"]) in
  run.2 = Ok tt ∧ tableName <$> run.1 = ["post"; "tag"].
Proof.
  intros run.
  destruct (C8_one_file_per_table_in_name_order (H := Sample.host) Sample.typescriptProgram ∅
              (λ _, Sample.postColumns) Blog.byteOrder ["tag"; "post"] byteOrder_total)
    as (_ & _ & _ & _ & Hnames & _).
  assert (run.2 = Ok tt) as Hrun by (vm_compute; reflexivity).
  split; [exact Hrun|]. etrans; [exact (proj1 Hnames Hrun)|]. vm_compute. reflexivity.
Defined.

(** C9 on an array of integer. *)
Lemma C9_integer_array_witness :
  getColumnType
    {| column_name := "scores"; column_default := None; is_nullable := "YES";
       data_type := "ARRAY"; character_maximum_length := None;
       udt_name := Some "integer[]"; enum_values := Some "{NULL}"; keys := [None] |}
  = Ok {| dataType := "ARRAY(DataTypes.INTEGER)"; docType := "Array";
          comment := Some "integer[]"; tsType := "number[]" |}.
Proof.
  apply (C9_array_wraps_element
           {| column_name := "scores"; column_default := None; is_nullable := "YES";
              data_type := "ARRAY"; character_maximum_length := None;
              udt_name := Some "integer[]"; enum_values := Some "{NULL}"; keys := [None] |}
           "integer").
  - reflexivity.
  - reflexivity.
Defined.

(** C10 on the pivot table post_tag: no column is left. *)
Lemma C10_pivot_table_witness :
  ∃ code associations file,
    generateAssociations (H := Sample.host) Sample.typescriptProgram
      Sample.postTagForeignKeys = Ok (code, associations)
    ∧ generateTableDefinition (H := Sample.host) Sample.typescriptProgram associations
        "post_tag" Sample.postTagColumns = Ok file
    ∧ field <$> columns file = []
    ∧ Forall (λ col, isPrimaryKey col = false) (columns file).
Proof.
  do 3 eexists. split; [vm_compute; reflexivity|].
  match goal with |- generateTableDefinition _ ?a _ _ = _ ∧ _ => set (associations := a) end.
  split; [vm_compute; reflexivity|].
  match goal with |- context [columns ?f] =>
    destruct (C10_foreign_key_columns_omitted (H := Sample.host) Sample.typescriptProgram
                associations "post_tag" Sample.postTagColumns) as [_ Hfile];
      [reflexivity|];
    destruct (Hfile f) as [Hfields Hpk]
  end.
  - vm_compute. reflexivity.
  - split; [exact Hfields|]. apply Hpk.
    intros r Hr _. unfold Sample.postTagColumns in Hr.
    apply elem_of_cons in Hr as [->|Hr]; [apply list_elem_of_here|].
    apply list_elem_of_singleton in Hr as ->. apply list_elem_of_here.
Defined.

(** * Further properties *)

Section MoreAssociations.
Context `{Host}.

(** ** The associations object, entry by entry *)

(** Where a row pushes nothing, it changes nothing. *)
Lemma register_lookup_other (row : FkRow) (m m' : gmap string (list Assoc)) (t : string) :
  register row m = Ok m' → entriesOf t row = [] → m' !! t = m !! t.
Proof.
  unfold register, entriesOf. destruct (JS.truthy (other_table row)).
  - set (o := JS.toStr (other_table row)). set (ref := reference_table row).
    destruct (decide (o = t)) as [|Ho]; [done|].
    destruct (decide (ref = t)) as [|Href]; [done|].
    rewrite (push_lookup o). destruct (ensure ref (ensure o m) !! o) as [l|]; simpl; [|done].
    rewrite push_lookup, lookup_insert.
    destruct (decide (o = ref)) as [_|_];
      [|destruct (ensure ref (ensure o m) !! ref) as [l'|]; [|done]];
      intros [= <-] _; rewrite !lookup_insert, !decide_False by done;
      by rewrite !lookup_ensure_ne.
  - destruct (decide (table_name row = t)) as [|Ht]; [done|].
    rewrite push_lookup. destruct (ensure (table_name row) m !! table_name row) as [l|]; [|done].
    intros [= <-] _. rewrite lookup_insert, decide_False by done.
    by rewrite lookup_ensure_ne.
Qed.

(** Every array stored in the object has an element. *)
Lemma register_nonempty (row : FkRow) (m m' : gmap string (list Assoc)) :
  register row m = Ok m' →
  (∀ t l, m !! t = Some l → l ≠ []) →
  ∀ t l, m' !! t = Some l → l ≠ [].
Proof.
  intros Hreg Hm t l Hl.
  destruct (entriesOf t row) as [|a entries] eqn:He.
  - rewrite (register_lookup_other _ _ _ _ Hreg He) in Hl. by eapply Hm.
  - pose proof (register_Ok _ _ _ Hreg t) as Ht. unfold assocsOf at 1 in Ht.
    rewrite Hl, He in Ht. simpl in Ht. intros ->. by destruct (assocsOf m t).
Qed.

Lemma foldR_nonempty (program : Program) (rows : list FkRow)
    (st st' : list string * gmap string (list Assoc)) :
  foldR (associationCallback program) rows st = Ok st' →
  (∀ t l, st.2 !! t = Some l → l ≠ []) →
  ∀ t l, st'.2 !! t = Some l → l ≠ [].
Proof.
  revert st. induction rows as [|row rows IH]; intros st; simpl; [by intros [= <-]|].
  unfold associationCallback at 1.
  destruct (register row st.2) as [m1|] eqn:Hreg; simpl; [|done].
  intros Hfold Hst. apply (IH _ Hfold). simpl. by eapply register_nonempty.
Qed.

(** X1. When no row names an inherited property where it pushes,
    [generateAssociations] returns, and the array kept for a table is the
    concatenation, in row order, of what each foreign-key row pushes on that
    table: no entry is lost, merged or moved. *)
Theorem associations_entries_in_row_order (program : Program) (rows : list FkRow) :
  Forall (λ r, hitsPrototype r = false) rows →
  ∃ code associations,
    generateAssociations program rows = Ok (code, associations)
    ∧ ∀ t, assocsOf associations t = concat (entriesOf t <$> rows).
Proof.
  intros Hall.
  destruct (generateAssociations_outcome program rows) as [_ Hmiss].
  destruct (Hmiss Hall) as (code & associations & Hok).
  exists code, associations. split; [done|].
  by apply generateAssociations_Ok in Hok as (_ & Hassoc & _).
Qed.

(** X2. After [generateAssociations] has returned, a table has no array in
    the associations object exactly when no foreign-key row pushes an entry
    on it. For such a table the TypeScript part has the three base imports
    only, no import line and no member for an association, unless the name of
    the table is one that [associations] inherits: then
    [associations[tableName]] is truthy without being an array and the
    TypeScript part throws a TypeError. *)
Theorem table_without_entry_has_no_association_code (program : Program) (rows : list FkRow)
    (code : list string) (associations : gmap string (list Assoc))
    (t : string) (columnData : list ColumnData) :
  generateAssociations program rows = Ok (code, associations) →
  (associations !! t = None ↔ ∀ row, row ∈ rows → entriesOf t row = [])
  ∧ (associations !! t = None → inherited t = false →
     typescriptParts program associations t columnData
     = Ok {| sequelizeImports := ["DataTypes"; "DefineAttributes"; "DefineOptions"];
             includeCode := [];
             attributeCode :=
               (λ col, tab program 1 +:+ name col +:+ ": " +:+ tsType (typeData col))
                 <$> columnData;
             instanceCode := [] |})
  ∧ (inherited t = true →
     associations !! t = None
     ∧ typescriptParts program associations t columnData = Throw TypeError).
Proof.
  intros Hok.
  pose proof (generateAssociations_Ok _ _ _ _ Hok) as (_ & He & Hkeyed).
  split; [|split].
  - specialize (He t).
    assert (associations !! t = None ↔ assocsOf associations t = []) as ->.
    { unfold assocsOf. destruct (associations !! t) as [l|] eqn:Hl; [|done].
      split; [done|]. simpl. intros ->. exfalso.
      eapply (foldR_nonempty program rows ([], ∅)); [exact Hok| |exact Hl|done].
      intros ??. simpl. by rewrite lookup_empty. }
    rewrite He. clear. induction rows as [|row rows IH]; simpl.
    + split; [|done]. intros _ row Hr. by apply elem_of_nil in Hr.
    + split.
      * intros [H1 H2]%app_eq_nil row' [->|Hr]%elem_of_cons; [done|]. by apply IH.
      * intros Hall. rewrite (Hall row) by apply list_elem_of_here. simpl.
        apply IH. intros row' Hr. apply Hall. by right.
  - intros Hnone Ht. unfold typescriptParts, member. by rewrite Hnone, Ht.
  - intros Ht. split; [by apply Hkeyed|].
    unfold typescriptParts, member. by rewrite (Hkeyed t Ht), Ht.
Qed.

End MoreAssociations.

Section MoreColumns.
Context `{Host}.

(** ** More on the column callback *)

Lemma mapR_first_throw {A B} (f : A → Result B) (pre post : list A) (x : A) (e : Exn) :
  Forall (λ a, ∃ b, f a = Ok b) pre →
  f x = Throw e →
  mapR f (pre ++ x :: post) = Throw e.
Proof.
  intros Hpre Hx. induction Hpre as [|a pre [b Hb] _ IH]; simpl.
  - by rewrite Hx.
  - by rewrite Hb, IH.
Qed.

Lemma toCamelCase_cons (c d : ascii) (rest : string) :
  toCamelCase (String c (String d rest))
  = if Ascii.eqb c "_" && isLetter d
    then toUpperCase (String d "") +:+ toCamelCase rest
    else String c (toCamelCase (String d rest)).
Proof. reflexivity. Qed.

Lemma camelStable_cons (c d : ascii) (rest : string) :
  camelStable (String c (String d rest))
  = negb (Ascii.eqb c "_" && isLetter d) && camelStable (String d rest).
Proof. reflexivity. Qed.

Lemma toCamelCase_stable (value : string) :
  camelStable value = true → toCamelCase value = value.
Proof.
  induction value as [|c rest IH]; [done|].
  destruct rest as [|d rest']; [done|].
  rewrite toCamelCase_cons, camelStable_cons.
  destruct (Ascii.eqb c "_" && isLetter d); [done|]. simpl negb. rewrite andb_true_l.
  intros Hs. by rewrite IH.
Qed.

(** X3. With the option to include foreign keys no row is skipped: when the
    file of a table is produced its columns are those of the rows, one for
    one and in order, each with the column name of its row as field, primary
    key exactly when the keys of the row hold PRIMARY KEY and nullable exactly
    when is_nullable is YES. *)
Theorem foreign_keys_kept_when_included (program : Program)
    (associations : gmap string (list Assoc)) (t : string) (rows : list Row) (file : ModelFile) :
  includeForeignKeys program = true →
  generateTableDefinition program associations t rows = Ok file →
  Forall2 (λ row col,
             field col = column_name row
             ∧ isPrimaryKey col = bool_decide (Some "PRIMARY KEY" ∈ keys row)
             ∧ allowNull col = bool_decide (is_nullable row = "YES"))
          rows (columns file).
Proof.
  intros Hinc Hgen. apply generateTableDefinition_Ok in Hgen as (_ & Hcols & _).
  revert Hcols. generalize (columns file). unfold columnDataOf.
  induction rows as [|r rows IH]; intros cols; simpl.
  - intros [= <-]. constructor.
  - destruct (columnCallback program r) as [oc|] eqn:Hcb; simpl; [|done].
    destruct (mapR (columnCallback program) rows) as [mapped|] eqn:Hm; simpl; [|done].
    intros [= <-]. specialize (IH _ eq_refl).
    unfold columnCallback in Hcb. rewrite Hinc in Hcb. simpl in Hcb.
    destruct (getColumnType r) as [d|]; simpl in Hcb; [|done].
    destruct (defaultChain r (dataType d)) as [chain|]; simpl in Hcb; [|done].
    injection Hcb as <-. simpl. constructor; [|done]. simpl.
    split; [done|]. split; [|done].
    destruct (hasKey r "PRIMARY KEY") eqn:Hk.
    + symmetry. by apply bool_decide_eq_true_2, hasKey_spec.
    + symmetry. by apply bool_decide_eq_false_2, hasKey_false.
Qed.

(** X4. A row that is kept and whose data type is outside the supported names
    makes [generateTableDefinition] throw the Unhandled data type error of
    that type, whatever rows follow it, when the rows before it raise
    nothing. *)
Theorem unsupported_column_aborts_table (program : Program)
    (associations : gmap string (list Assoc)) (t : string)
    (before after : list Row) (row : Row) :
  Forall (λ r, ∃ oc, columnCallback program r = Ok oc) before →
  includeForeignKeys program = true ∨ Some "FOREIGN KEY" ∉ keys row →
  data_type row ∉ supportedTypes →
  generateTableDefinition program associations t (before ++ row :: after)
  = Throw (Error ("Unhandled data type: " +:+ data_type row)).
Proof.
  intros Hbefore Hkept Hun.
  assert (columnCallback program row
          = Throw (Error ("Unhandled data type: " +:+ data_type row))) as Hrow.
  { unfold columnCallback.
    assert (negb (includeForeignKeys program) && hasKey row "FOREIGN KEY" = false) as ->.
    { destruct Hkept as [-> | Hfk]; [done|]. apply hasKey_false in Hfk. rewrite Hfk.
      by destruct (includeForeignKeys program). }
    by rewrite (getColumnType_unsupported row Hun). }
  unfold generateTableDefinition, columnDataOf.
  by rewrite (mapR_first_throw _ _ _ _ _ Hbefore Hrow).
Qed.

(** X5. The property name of a column is its column name, as its field name
    always is, when the camel-case option is off or when the column name has
    no underscore followed by a letter. *)
Theorem column_name_is_field_name (program : Program) (row : Row) (col : ColumnData) :
  columnCallback program row = Ok (Some col) →
  camelCase program = false ∨ camelStable (column_name row) = true →
  name col = column_name row ∧ field col = column_name row.
Proof.
  unfold columnCallback.
  destruct (negb (includeForeignKeys program) && hasKey row "FOREIGN KEY"); [done|].
  destruct (getColumnType row) as [d|]; simpl; [|done].
  destruct (defaultChain row (dataType d)) as [chain|]; simpl; [|done].
  intros [= <-] Hname. simpl. split; [|done].
  destruct Hname as [-> | Hs]; [done|]. rewrite (toCamelCase_stable _ Hs).
  by destruct (camelCase program).
Qed.

Lemma defaultChain_Throw (row : Row) (dataType : string) (e : Exn) :
  defaultChain row dataType = Throw e →
  data_type row = "USER-DEFINED"
  ∧ RegExp_exec ("'(.+)'::" +:+ JS.toStr (udt_name row) +:+ "$")
      (JS.toStr (column_default row)) = Throw e.
Proof.
  unfold defaultChain.
  destruct (execQuoted (column_default row)); [done|].
  destruct (execJsonb (column_default row)); [done|].
  case_bool_decide; [done|].
  destruct (testNextval (column_default row)); [done|].
  destruct (JS.truthy (column_default row) && eqs dataType "BOOLEAN"); [done|].
  destruct (JS.truthy (column_default row) && eqs dataType "INTEGER"); [done|].
  destruct (JS.truthy (column_default row) && eqs (data_type row) "ARRAY"); [done|].
  destruct (eqs (data_type row) "USER-DEFINED") eqn:Hud; [|done].
  apply bool_decide_eq_true_1 in Hud.
  destruct (RegExp_exec _ _) as [[[m1|]|]|e']; simpl; try done.
  by intros [= ->].
Qed.

(** X6. The column callback throws only for a row it keeps, and what it throws
    is what the classification of the row throws or, for a USER-DEFINED
    column, what the pattern built from the name of the type throws: the
    other rules of the default chain raise nothing. *)
Theorem column_callback_throws_only_from (program : Program) (row : Row) (e : Exn) :
  columnCallback program row = Throw e →
  (includeForeignKeys program = true ∨ Some "FOREIGN KEY" ∉ keys row)
  ∧ (getColumnType row = Throw e
     ∨ (data_type row = "USER-DEFINED"
        ∧ RegExp_exec ("'(.+)'::" +:+ JS.toStr (udt_name row) +:+ "$")
            (JS.toStr (column_default row)) = Throw e)).
Proof.
  unfold columnCallback.
  destruct (negb (includeForeignKeys program) && hasKey row "FOREIGN KEY") eqn:Hskip; [done|].
  intros Hthrow. split.
  { destruct (includeForeignKeys program); [by left|]. right. by apply hasKey_false. }
  revert Hthrow. destruct (getColumnType row) as [d|e']; simpl; [|intros [= ->]; by left].
  destruct (defaultChain row (dataType d)) as [chain|e'] eqn:Hch; simpl; [done|].
  intros [= ->]. right. by apply (defaultChain_Throw _ _ _ Hch).
Qed.

(** X7. The default chain marks a column as auto-incrementing only when the
    default text begins with nextval( and neither the quoted-literal rule nor
    the jsonb rule matches it, and then it stores no default value. *)
Theorem auto_increment_only_from_nextval (row : Row) (dataType : string)
    (v : DefaultValue) :
  defaultChain row dataType = Ok (v, true) →
  testNextval (column_default row) = true
  ∧ v = DNull
  ∧ execQuoted (column_default row) = None
  ∧ execJsonb (column_default row) = None.
Proof.
  unfold defaultChain.
  destruct (execQuoted (column_default row)); [done|].
  destruct (execJsonb (column_default row)); [done|].
  case_bool_decide; [done|].
  destruct (testNextval (column_default row)); [by intros [= <-]|].
  destruct (JS.truthy (column_default row) && eqs dataType "BOOLEAN"); [done|].
  destruct (JS.truthy (column_default row) && eqs dataType "INTEGER"); [done|].
  destruct (JS.truthy (column_default row) && eqs (data_type row) "ARRAY"); [done|].
  destruct (eqs (data_type row) "USER-DEFINED"); [|done].
  by destruct (RegExp_exec _ _) as [[[m1|]|]|e'].
Qed.

End MoreColumns.

Section MoreDefaults.
Context `{Host}.

(** ** More on the default chain *)

(** X8. A column whose default text is absent or empty, and whose type is not
    USER-DEFINED, has no default value and is not auto-incrementing, whatever
    its storage type. *)
Theorem missing_default_is_no_default (row : Row) (dataType : string) :
  JS.truthy (column_default row) = false →
  data_type row ≠ "USER-DEFINED" →
  defaultChain row dataType = Ok (DNull, false).
Proof.
  intros Hf Hud. unfold defaultChain.
  rewrite (eqs_false _ _ Hud).
  destruct (column_default row) as [[|c s]|]; [|done|]; reflexivity.
Qed.

(** X9. A default text made of a quoted body, with or without the cast to
    character varying, the body free of line terminators, gives the body as a
    string literal, whatever the type of the column. *)
Theorem quoted_default_is_string_literal (row : Row) (dataType b : string) :
  column_default row = Some ("'" +:+ b +:+ "'")
  ∨ column_default row = Some ("'" +:+ b +:+ "'::character varying") →
  JS.allDot b = true →
  defaultChain row dataType = Ok (DString (JS.JSON_stringify b), false).
Proof.
  intros Hcd Hd.
  assert (∃ s, column_default row = Some s ∧ execQuoted (Some s) = Some b) as (s & Hs & Hq).
  { destruct Hcd as [Hcd|Hcd]; eexists; (split; [exact Hcd|]); apply execQuoted_spec; auto. }
  unfold defaultChain. by rewrite Hs, Hq.
Qed.

(** X10. A boolean column whose default text is taken by none of the first
    four rules has the default false exactly when the text is false, and true
    for any other text. *)
Theorem boolean_default_true_unless_false (row : Row) (t : string) :
  data_type row = "boolean" →
  column_default row = Some t →
  t ≠ "" →
  execQuoted (Some t) = None →
  execJsonb (Some t) = None →
  t ≠ "now()" →
  testNextval (Some t) = false →
  ∃ d, getColumnType row = Ok d ∧ docType d = "boolean"
       ∧ defaultChain row (dataType d)
         = Ok (DBool (negb (bool_decide (t = "false"))), false).
Proof.
  intros Hdt Hcd Hne Hq Hjs Hnow Hnv.
  exists {| dataType := "BOOLEAN"; docType := "boolean"; comment := None; tsType := "boolean" |}.
  split; [|split; [done|]].
  - apply (inj Some). rewrite getColumnType_unfold. unfold getColumnType_body.
    rewrite Hdt. by eval_eqs.
  - unfold defaultChain. rewrite Hcd, Hq, Hjs, Hnv.
    rewrite bool_decide_eq_false_2 by congruence.
    assert (bool_decide (Some t = Some "false") = bool_decide (t = "false")) as ->
      by (apply bool_decide_ext; split; congruence).
    simpl. eval_eqs. by destruct t.
Qed.

Lemma array_dataType_neq (x s : string) :
  String.get 0 s ≠ Some "A"%char → eqs ("ARRAY(DataTypes." +:+ x +:+ ")") s = false.
Proof.
  intros Hs. apply eqs_false. intros <-. by apply Hs.
Qed.

(** X11. An array column whose default text is taken by none of the first four
    rules has the empty array as default, whatever the text says. *)
Theorem array_default_is_empty_array (row : Row) (d : TypeData) (t : string) :
  data_type row = "ARRAY" →
  getColumnType row = Ok d →
  column_default row = Some t →
  t ≠ "" →
  execQuoted (Some t) = None →
  execJsonb (Some t) = None →
  t ≠ "now()" →
  testNextval (Some t) = false →
  defaultChain row (dataType d) = Ok (DString "[]", false).
Proof.
  intros Hdt Hd Hcd Hne Hq Hjs Hnow Hnv.
  assert (∃ x, dataType d = "ARRAY(DataTypes." +:+ x +:+ ")") as [x Hx].
  { destruct (udt_name row) as [u|] eqn:Hu.
    - rewrite (getColumnType_array row u Hdt Hu) in Hd.
      destruct (getColumnType _) as [inner|]; [|done]. injection Hd as <-. by eexists.
    - by rewrite (getColumnType_array_no_udt row Hdt Hu) in Hd. }
  unfold defaultChain. rewrite Hcd, Hq, Hjs, Hnv, Hx, Hdt.
  rewrite bool_decide_eq_false_2 by congruence.
  rewrite !array_dataType_neq by done. eval_eqs.
  by destruct t.
Qed.

End MoreDefaults.

(** ** More on type classification *)

Lemma substring_prefix (x y : string) :
  String.substring 0 (String.length x) (x +:+ y) = x.
Proof.
  induction x as [|c x IH].
  - rewrite append_empty_l. by destruct y.
  - rewrite append_cons. simpl. by rewrite IH.
Qed.

Lemma length_append (x y : string) :
  String.length (x +:+ y) = (String.length x + String.length y)%nat.
Proof. induction x as [|c x IH]; [done|]. rewrite append_cons. simpl. by rewrite IH. Qed.

(** The text between the braces. *)
Lemma substring_braces (inner : string) :
  let ev := "{" +:+ inner +:+ "}" in
  JS.substring ev 1 (JS.len ev - 1) = inner.
Proof.
  intros ev. unfold JS.substring, JS.len. subst ev.
  rewrite append_cons, append_empty_l. simpl String.length. rewrite length_append. simpl.
  replace (Z.min (Z.max 1 0) (Z.of_nat (S (String.length inner + 1)))) with 1 by lia.
  replace (Z.min (Z.max (Z.of_nat (S (String.length inner + 1)) - 1) 0)
             (Z.of_nat (S (String.length inner + 1))))
    with (Z.of_nat (String.length inner) + 1) by lia.
  replace (Z.min 1 (Z.of_nat (String.length inner) + 1)) with 1 by lia.
  replace (Z.max 1 (Z.of_nat (String.length inner) + 1) - 1)
    with (Z.of_nat (String.length inner)) by lia.
  rewrite Nat2Z.id. change (Z.to_nat 1) with 1%nat. simpl. apply substring_prefix.
Qed.

Lemma split_go_nonempty (sep : ascii) (cur s : string) : JS.split_go sep cur s ≠ [].
Proof.
  revert cur. induction s as [|c s IH]; intros cur; simpl; [done|].
  destruct (Ascii.eqb c sep); [done|apply IH].
Qed.

(** Splitting at the commas and joining with quote, comma, blank, quote. *)
Lemma split_go_join (cur s : string) :
  JS.join "', '" (JS.split_go "," cur s) = String.rev cur +:+ replaceCommas s.
Proof.
  revert cur. induction s as [|c s IH]; intros cur; simpl.
  - by rewrite append_empty_r.
  - destruct (Ascii.eqb c ",") eqn:Hc.
    + specialize (IH ""). simpl in IH.
      change (JS.join "', '" (String.rev cur :: JS.split_go "," "" s))
        with (match JS.split_go "," "" s with
              | [] => String.rev cur
              | _ :: _ => String.rev cur +:+ "', '" +:+ JS.join "', '" (JS.split_go "," "" s)
              end).
      destruct (JS.split_go "," "" s) eqn:Hsp.
      { by apply split_go_nonempty in Hsp. }
      by rewrite IH.
    + rewrite IH. unfold String.rev at 1. simpl. rewrite rev_app_append, append_assoc.
      by rewrite append_cons, append_empty_l.
Qed.

Lemma replaceCommas_commaFree (s : string) : commaFree s → replaceCommas s = s.
Proof.
  unfold commaFree. induction s as [|c s IH]; [done|]. simpl.
  rewrite not_elem_of_cons. intros [Hc Hs].
  destruct (Ascii.eqb_spec c ",") as [->|_]; [done|]. by rewrite IH.
Qed.

Lemma replaceCommas_append (x y : string) :
  replaceCommas (x +:+ y) = replaceCommas x +:+ replaceCommas y.
Proof.
  induction x as [|c x IH]; [done|]. rewrite append_cons. simpl.
  destruct (Ascii.eqb c ","); rewrite IH; [|by rewrite append_cons].
  by rewrite !append_assoc.
Qed.

Lemma replaceCommas_join (labels : list string) :
  Forall commaFree labels →
  replaceCommas (JS.join "," labels) = JS.join "', '" labels.
Proof.
  induction 1 as [|l labels Hl _ IH]; [done|].
  destruct labels as [|l' labels]; [by apply replaceCommas_commaFree|].
  change (JS.join "," (l :: l' :: labels)) with (l +:+ "," +:+ JS.join "," (l' :: labels)).
  change (JS.join "', '" (l :: l' :: labels))
    with (l +:+ "', '" +:+ JS.join "', '" (l' :: labels)).
  rewrite !replaceCommas_append, (replaceCommas_commaFree l Hl), IH. reflexivity.
Qed.

(** X12. A USER-DEFINED column whose label text is a braced list is an ENUM
    whose labels are the pieces of the list between commas: for labels that
    hold no comma the list printed is the labels joined by quote, comma,
    blank, quote. *)
Theorem enum_labels_split_at_commas (row : Row) (inner : string) :
  data_type row = "USER-DEFINED" →
  enum_values row = Some ("{" +:+ inner +:+ "}") →
  getColumnType row
  = Ok {| dataType := "ENUM('" +:+ replaceCommas inner +:+ "')";
          docType := "string";
          comment := Some ("user defined type: " +:+ JS.toStr (udt_name row));
          tsType := "string" |}
  ∧ ∀ labels, Forall commaFree labels → inner = JS.join "," labels →
      replaceCommas inner = JS.join "', '" labels.
Proof.
  intros Hdt Hev. split.
  - apply (inj Some). rewrite getColumnType_unfold. unfold getColumnType_body.
    rewrite Hdt, Hev. eval_eqs. rewrite substring_braces.
    unfold JS.split. by rewrite split_go_join.
  - intros labels Hl ->. by apply replaceCommas_join.
Qed.

(** X13. The classification of an array column reads the udt_name of the row
    and nothing else: two array rows with the same udt_name are classified
    alike, whatever their lengths, defaults or label texts. *)
Theorem array_classified_from_udt_name_alone (row row' : Row) :
  data_type row = "ARRAY" →
  data_type row' = "ARRAY" →
  udt_name row = udt_name row' →
  getColumnType row = getColumnType row'.
Proof.
  intros Hdt Hdt' Hu. destruct (udt_name row') as [u|] eqn:Hu'.
  - by rewrite (getColumnType_array row u Hdt Hu), (getColumnType_array row' u Hdt' Hu').
  - by rewrite (getColumnType_array_no_udt row Hdt Hu),
               (getColumnType_array_no_udt row' Hdt' Hu').
Qed.

Section MoreTypescript.
Context `{Host}.

(** ** The TypeScript part, model by model *)

Lemma linesOf_cons (b : Block) (blocks : list Block) :
  linesOf (b :: blocks) = (if kept b then blockLines b else []) ++ linesOf blocks.
Proof.
  unfold linesOf. destruct (kept b) eqn:Hk.
  - by rewrite filter_cons_True by done.
  - rewrite filter_cons_False; [done|]. by rewrite Hk.
Qed.

Lemma importLine_kept (ass : Assoc) : kept (BString (importLine ass)) = true.
Proof. unfold importLine. apply kept_line, append_nonempty_r, append_nonempty_l. done. Qed.

Lemma elem_of_firstByModel (seen : gset string) (l : list Assoc) (m : string) :
  m ∈ (model <$> firstByModel seen l) ↔ m ∈ (model <$> l) ∧ m ∉ seen.
Proof.
  revert seen. induction l as [|a l IH]; intros seen; simpl.
  - rewrite elem_of_nil. tauto.
  - destruct (decide (model a ∈ seen)) as [Hs|Hs].
    + rewrite IH, elem_of_cons. split; [tauto|]. intros [[->|?] ?]; tauto.
    + simpl. rewrite !elem_of_cons, IH, elem_of_union, elem_of_singleton.
      split; [intros [->|[? ?]]; tauto|].
      intros [[->|?] ?]; [tauto|]. destruct (decide (m = model a)); tauto.
Qed.

Lemma NoDup_firstByModel (seen : gset string) (l : list Assoc) :
  NoDup (model <$> firstByModel seen l).
Proof.
  revert seen. induction l as [|a l IH]; intros seen; simpl; [constructor|].
  destruct (decide (model a ∈ seen)); [apply IH|]. simpl. constructor; [|apply IH].
  rewrite elem_of_firstByModel, elem_of_union, elem_of_singleton. tauto.
Qed.

Lemma mapSeen_include (seen : gset string) (l : list Assoc) :
  ∃ blocks, mapSeen includeCallback seen l = Ok blocks
            ∧ linesOf blocks = importLine <$> firstByModel seen l.
Proof.
  revert seen. induction l as [|a l IH]; intros seen; simpl; [by exists []|].
  unfold includeCallback at 1. destruct (decide (model a ∈ seen)) as [Hs|Hs].
  - rewrite bool_decide_eq_true_2 by done. simpl.
    destruct (IH seen) as (blocks & -> & Hl). simpl. eexists. split; [done|].
    by rewrite linesOf_cons.
  - rewrite bool_decide_eq_false_2 by done. simpl.
    destruct (IH ({[model a]} ∪ seen)) as (blocks & -> & Hl). simpl.
    eexists. split; [done|]. rewrite linesOf_cons.
    fold (importLine a). rewrite importLine_kept. simpl. by rewrite Hl.
Qed.

(** X14. In the TypeScript part of a table there is one import line for each
    model of its associations, that of the first entry of the model, in the
    order of first occurrence; one attribute line for each column; and
    FindOptions is imported exactly when an entry is many-to-many. *)
Theorem one_import_per_model (program : Program) (associations : gmap string (list Assoc))
    (t : string) (columnData : list ColumnData) (parts : TsParts) :
  typescriptParts program associations t columnData = Ok parts →
  let l := assocsOf associations t in
  includeCode parts = importLine <$> firstByModel ∅ l
  ∧ NoDup (model <$> firstByModel ∅ l)
  ∧ (∀ m, m ∈ (model <$> firstByModel ∅ l) ↔ m ∈ (model <$> l))
  ∧ length (attributeCode parts) = length columnData
  ∧ ("FindOptions" ∈ sequelizeImports parts ↔ ∃ a, a ∈ l ∧ manyToMany a = true).
Proof.
  intros Hparts l.
  split; [|split; [apply NoDup_firstByModel|split; [|split]]].
  - revert Hparts. unfold typescriptParts, member. subst l. unfold assocsOf.
    destruct (associations !! t) as [l|]; simpl;
      [|by destruct (inherited t); [|intros [= <-]]].
    destruct (instanceMap program l); simpl; [|done].
    unfold includeMap. destruct (mapSeen_include ∅ l) as (blocks & -> & Hl). simpl.
    by intros [= <-].
  - intros m. rewrite elem_of_firstByModel. split; [tauto|]. intros ?. split; [done|].
    apply not_elem_of_empty.
  - revert Hparts. unfold typescriptParts, member.
    destruct (associations !! t) as [l'|]; simpl.
    + destruct (instanceMap program l'); simpl; [|done].
      destruct (includeMap l'); simpl; [|done]. intros [= <-]. simpl. by rewrite length_fmap.
    + destruct (inherited t); [done|]. intros [= <-]. simpl. by rewrite length_fmap.
  - revert Hparts. unfold typescriptParts, member. subst l. unfold assocsOf.
    destruct (associations !! t) as [l|]; simpl.
    + destruct (instanceMap program l); simpl; [|done].
      destruct (includeMap l); simpl; [|done]. intros [= <-]. simpl.
      destruct (existsb manyToMany l) eqn:Hex.
      * split; [|intros _; rewrite !elem_of_cons; auto 10].
        intros _. apply existsb_exists in Hex as (ass & Ha & Hm). exists ass.
        split; [by apply list_elem_of_In|done].
      * split.
        -- rewrite !elem_of_cons, elem_of_nil. intros [?|[?|[?|[]]]]; done.
        -- intros (ass & Ha & Hm). exfalso.
           assert (existsb manyToMany l = true) as Hc; [|congruence].
           apply existsb_exists. exists ass. split; [by apply list_elem_of_In|done].
    + destruct (inherited t); [done|]. intros [= <-]. simpl. split.
      * rewrite !elem_of_cons, elem_of_nil. intros [?|[?|[?|[]]]]; done.
      * intros (ass & Ha & _). by apply elem_of_nil in Ha.
Qed.

Lemma instanceCallback_fresh (program : Program) (seen : gset string) (ass : Assoc) :
  model ass ∉ seen →
  instanceCallback program seen ass
  = let* b := instanceBlock program ass in Ok (b, {[model ass]} ∪ seen).
Proof.
  intros Hs. unfold instanceBlock, instanceCallback.
  rewrite bool_decide_eq_false_2 by done.
  rewrite bool_decide_eq_false_2 by apply not_elem_of_empty.
  destruct (manyToMany ass).
  - destruct (lowerFirst (pluralize (model ass))); simpl; [|done].
    by destruct (lowerFirst (singularize (model ass))).
  - by destruct (lowerFirst (model ass)).
Qed.

Lemma instanceBlock_kept (program : Program) (ass : Assoc) (b : Block) :
  instanceBlock program ass = Ok b → kept b = true.
Proof.
  unfold instanceBlock. destruct (instanceCallback program ∅ ass) as [r|] eqn:Hr; [|done].
  simpl. intros [= <-].
  pose proof (instanceCallback_dedups program ∅ ass r Hr) as Hd.
  rewrite bool_decide_eq_false_2 in Hd by apply not_elem_of_empty. by destruct Hd.
Qed.

Lemma mapSeen_instance (program : Program) (seen : gset string) (l : list Assoc) :
  (let* blocks := mapSeen (instanceCallback program) seen l in Ok (linesOf blocks))
  = (let* blocks := mapR (instanceBlock program) (firstByModel seen l) in
     Ok (concat (blockLines <$> blocks))).
Proof.
  revert seen. induction l as [|a l IH]; intros seen; simpl; [done|].
  destruct (decide (model a ∈ seen)) as [Hs|Hs].
  - unfold instanceCallback at 1. rewrite bool_decide_eq_true_2 by done. simpl.
    rewrite <- IH. destruct (mapSeen _ seen l); simpl; [|done]. by rewrite linesOf_cons.
  - rewrite instanceCallback_fresh by done. simpl.
    destruct (instanceBlock program a) as [b|] eqn:Hb; simpl; [|done].
    specialize (IH ({[model a]} ∪ seen)).
    destruct (mapSeen _ _ l) as [blocks|]; simpl in *.
    + destruct (mapR _ _) as [blocks'|]; simpl in *; [|done].
      injection IH as IH. rewrite linesOf_cons, (instanceBlock_kept _ _ _ Hb), IH. done.
    + by destruct (mapR _ _).
Qed.

(** X15. The members of the instance interface are those of the first entry of
    each model, in the order of first occurrence, each computed as for a
    model not seen before; an exception of one of them is that of the
    whole. *)
Theorem instance_blocks_of_first_associations (program : Program) (l : list Assoc) :
  (let* blocks := instanceMap program l in Ok (linesOf blocks))
  = (let* blocks := mapR (instanceBlock program) (firstByModel ∅ l) in
     Ok (concat (blockLines <$> blocks))).
Proof. apply mapSeen_instance. Qed.

End MoreTypescript.

Section MoreLoop.
Context `{Host}.

(** ** The table loop at its first failure *)

(** X16. When the tables before a table give their files and that table
    throws, the run has written exactly those files and ends with the
    exception: no table after it is visited. *)
Theorem first_failing_table_stops_the_run (program : Program)
    (associations : gmap string (list Assoc)) (columnQuery : string → list Row)
    (before after : list string) (t : string) (files : list ModelFile) (e : Exn) :
  mapR (λ x, generateTableDefinition program associations x (columnQuery x)) before = Ok files →
  generateTableDefinition program associations t (columnQuery t) = Throw e →
  generateDefinitions program associations columnQuery (before ++ t :: after)
  = (files, Throw e).
Proof.
  revert files. induction before as [|x before IH]; intros files; simpl.
  - intros [= <-] ->. done.
  - destruct (generateTableDefinition program associations x (columnQuery x)) as [f|]; simpl;
      [|done].
    destruct (mapR _ before) as [fs|]; simpl; [|done].
    intros [= <-] Ht. by rewrite (IH fs eq_refl Ht).
Qed.

End MoreLoop.

(** ** The command line *)

Lemma flagOption_fields (arg : string) (p : Cli.Args) :
  Cli.typescript (Cli.flagOption arg p) = Cli.typescript p || eqs arg "--typescript"
  ∧ Cli.includeForeignKeys (Cli.flagOption arg p)
    = Cli.includeForeignKeys p || eqs arg "--include-foreign-keys"
  ∧ Cli.camelCase (Cli.flagOption arg p) = Cli.camelCase p || eqs arg "--camel-case"
  ∧ Cli.quiet (Cli.flagOption arg p) = Cli.quiet p || eqs arg "--quiet" || eqs arg "-q"
  ∧ Cli.connection (Cli.flagOption arg p) = Cli.connection p
  ∧ Cli.modelsDir (Cli.flagOption arg p) = Cli.modelsDir p
  ∧ Cli.relationsFile (Cli.flagOption arg p) = Cli.relationsFile p
  ∧ Cli.indent (Cli.flagOption arg p) = Cli.indent p.
Proof.
  unfold Cli.flagOption.
  destruct (decide (arg = "--verbose")) as [->|H1];
    [eval_eqs; simpl; by rewrite ?orb_false_r|].
  destruct (decide (arg = "-v")) as [->|H2];
    [eval_eqs; simpl; by rewrite ?orb_false_r|].
  destruct (decide (arg = "-vv")) as [->|H3];
    [eval_eqs; simpl; by rewrite ?orb_false_r|].
  destruct (decide (arg = "--quiet")) as [->|H4];
    [eval_eqs; simpl; by rewrite ?orb_false_r, ?orb_true_r|].
  destruct (decide (arg = "-q")) as [->|H5];
    [eval_eqs; simpl; by rewrite ?orb_false_r, ?orb_true_r|].
  destruct (decide (arg = "--typescript")) as [->|H6];
    [eval_eqs; simpl; by rewrite ?orb_false_r, ?orb_true_r|].
  destruct (decide (arg = "--include-foreign-keys")) as [->|H7];
    [eval_eqs; simpl; by rewrite ?orb_false_r, ?orb_true_r|].
  destruct (decide (arg = "--camel-case")) as [->|H8];
    [eval_eqs; simpl; by rewrite ?orb_false_r, ?orb_true_r|].
  rewrite !(eqs_false arg) by done. simpl. by rewrite !orb_false_r.
Qed.

Lemma bool_decide_elem_of_cons (s arg : string) (rest : list string) :
  bool_decide (s ∈ arg :: rest) = eqs arg s || bool_decide (s ∈ rest).
Proof.
  unfold eqs. destruct (decide (arg = s)) as [->|Hne].
  - rewrite (bool_decide_eq_true_2 (s ∈ s :: rest)) by (by left).
    by rewrite (bool_decide_eq_true_2 (s = s)).
  - rewrite (bool_decide_eq_false_2 (arg = s)) by done. simpl.
    apply bool_decide_ext. rewrite elem_of_cons. split; [|tauto]. intros [?|?]; [congruence|done].
Qed.

Lemma parseLoop_plain_cons (p : Cli.Args) (arg : string) (rest : list string) :
  plainArgument arg →
  Cli.parseLoop p (arg :: rest) = Cli.parseLoop (Cli.flagOption arg p) rest.
Proof.
  intros (Hv & H1 & H2). simpl. by rewrite (eqs_false _ _ H1), (eqs_false _ _ H2), Hv.
Qed.

Lemma parseLoop_plain_app (p : Cli.Args) (before rest : list string) :
  Forall plainArgument before →
  Cli.parseLoop p (before ++ rest)
  = Cli.parseLoop (fold_left (λ q arg, Cli.flagOption arg q) before p) rest.
Proof.
  intros Hb. revert p. induction Hb as [|arg before Ha _ IH]; intros p; [done|].
  rewrite <- app_comm_cons, parseLoop_plain_cons by done. apply IH.
Qed.

Lemma fold_flagOption_fields (p : Cli.Args) (args : list string) :
  let p' := fold_left (λ q arg, Cli.flagOption arg q) args p in
  Cli.typescript p' = Cli.typescript p || bool_decide ("--typescript" ∈ args)
  ∧ Cli.includeForeignKeys p'
    = Cli.includeForeignKeys p || bool_decide ("--include-foreign-keys" ∈ args)
  ∧ Cli.camelCase p' = Cli.camelCase p || bool_decide ("--camel-case" ∈ args)
  ∧ Cli.quiet p'
    = Cli.quiet p || bool_decide ("--quiet" ∈ args) || bool_decide ("-q" ∈ args)
  ∧ Cli.connection p' = Cli.connection p
  ∧ Cli.modelsDir p' = Cli.modelsDir p
  ∧ Cli.relationsFile p' = Cli.relationsFile p
  ∧ Cli.indent p' = Cli.indent p.
Proof.
  revert p. induction args as [|arg args IH]; intros p; simpl.
  - rewrite ?bool_decide_eq_false_2 by apply not_elem_of_nil.
    by rewrite ?orb_false_r.
  - destruct (IH (Cli.flagOption arg p)) as (I1 & I2 & I3 & I4 & I5 & I6 & I7 & I8).
    destruct (flagOption_fields arg p) as (F1 & F2 & F3 & F4 & F5 & F6 & F7 & F8).
    rewrite I1, I2, I3, I4, I5, I6, I7, I8, F1, F2, F3, F4, F5, F6, F7, F8.
    rewrite !bool_decide_elem_of_cons.
    repeat split; try done;
      repeat match goal with |- context [eqs ?a ?b] => destruct (eqs a b) end;
      repeat match goal with |- context [bool_decide ?P] => destruct (bool_decide P) end;
      by destruct (Cli.typescript p), (Cli.includeForeignKeys p), (Cli.camelCase p),
                  (Cli.quiet p).
Qed.

(** X17. A command line without an option that reads a value, without --help
    and without --version is parsed to the end, and each flag is set exactly
    when its name occurs, wherever it occurs and however often; the
    connection and the targets stay unset. *)
Theorem flags_alone_parse_in_any_order (args : list string) :
  Forall plainArgument args →
  ∃ p, Cli.parseArgs args = Cli.Done p
       ∧ Cli.typescript p = bool_decide ("--typescript" ∈ args)
       ∧ Cli.includeForeignKeys p = bool_decide ("--include-foreign-keys" ∈ args)
       ∧ Cli.camelCase p = bool_decide ("--camel-case" ∈ args)
       ∧ Cli.quiet p = bool_decide ("--quiet" ∈ args) || bool_decide ("-q" ∈ args)
       ∧ Cli.connection p = Cli.connection Cli.initial
       ∧ Cli.modelsDir p = None
       ∧ Cli.relationsFile p = None
       ∧ Cli.indent p = None.
Proof.
  intros Hargs. unfold Cli.parseArgs.
  pose proof (parseLoop_plain_app Cli.initial args [] Hargs) as Hp.
  rewrite app_nil_r in Hp. rewrite Hp. simpl.
  eexists. split; [done|]. apply (fold_flagOption_fields Cli.initial args).
Qed.

(** X18. After arguments that are flags or unknown, --help prints the usage
    and --version the version, both with exit code 0, whatever follows on the
    command line. *)
Theorem help_and_version_exit_at_once (before after : list string) :
  Forall plainArgument before →
  Cli.parseArgs (before ++ "--help" :: after) = Cli.Exited 0 Cli.Usage
  ∧ Cli.parseArgs (before ++ "--version" :: after) = Cli.Exited 0 Cli.Version.
Proof.
  intros Hb. unfold Cli.parseArgs. by rewrite !parseLoop_plain_app.
Qed.

Lemma valueOption_keeps_host (arg : string) (set : option string → Cli.Args → Cli.Args) :
  Cli.valueOption arg = Some set →
  arg ≠ "--host" → arg ≠ "-h" →
  ∀ v p, Cli.host (Cli.connection (set v p)) = Cli.host (Cli.connection p).
Proof.
  unfold Cli.valueOption. intros Hset Hh1 Hh2 v p.
  rewrite (eqs_false _ _ Hh1), (eqs_false _ _ Hh2) in Hset. simpl in Hset.
  repeat case_match; simplify_eq/=; done.
Qed.

Lemma parseLoop_keeps_host (n : nat) (args : list string) (p p' : Cli.Args) :
  (length args ≤ n)%nat →
  Forall (λ arg, arg ≠ "--host" ∧ arg ≠ "-h") args →
  Cli.parseLoop p args = Cli.Done p' →
  Cli.host (Cli.connection p') = Cli.host (Cli.connection p).
Proof.
  revert args p. induction n as [|n IH]; intros args p Hlen Hno.
  - destruct args; [|simpl in Hlen; lia]. simpl. by intros [= <-].
  - destruct args as [|arg rest]; [simpl; by intros [= <-]|].
    apply Forall_cons in Hno as [[Hh1 Hh2] Hno]. simpl in *.
    destruct (eqs arg "--version"); [done|]. destruct (eqs arg "--help"); [done|].
    destruct (Cli.valueOption arg) as [set|] eqn:Hv.
    + destruct rest as [|value rest'].
      * intros [= <-]. by apply (valueOption_keeps_host arg).
      * apply Forall_cons in Hno as [_ Hno]. intros Hp.
        rewrite (IH rest' _ ltac:(simpl in Hlen; lia) Hno Hp).
        by apply (valueOption_keeps_host arg).
    + intros Hp. rewrite (IH rest _ ltac:(lia) Hno Hp).
      by destruct (flagOption_fields arg p) as (_ & _ & _ & _ & -> & _).
Qed.

Section MoreStartup.
Variable resolve : string → string.
Variable dirname : string → string.
Variable accessSync : option string → bool.

(** X19. A command line that holds neither --host nor -h fails the first
    check, with the message host is required, whatever else it gives and
    whatever the file system holds. *)
Theorem host_is_required (args : list string) (p : Cli.Args) :
  Forall (λ arg, arg ≠ "--host" ∧ arg ≠ "-h") args →
  Cli.parseArgs args = Cli.Done p →
  Cli.startup resolve dirname accessSync p = Cli.Failed "host is required".
Proof.
  intros Hno Hp. unfold Cli.startup.
  by rewrite (parseLoop_keeps_host (length args) args _ _ (le_n _) Hno Hp).
Qed.

(** X20. When the checks pass, host, database, models directory and relations
    file were given and not empty, both directories are accessible, the host
    is the one given (the fallback on localhost is never taken) and the
    schema is the one given, or public. *)
Theorem ready_environment (p : Cli.Args) (env : Cli.Env) :
  Cli.startup resolve dirname accessSync p = Cli.Ready env →
  let c := Cli.connection p in
  JS.truthy (Cli.host c) = true
  ∧ JS.truthy (Cli.database c) = true
  ∧ JS.truthy (Cli.modelsDir p) = true
  ∧ JS.truthy (Cli.relationsFile p) = true
  ∧ Cli.env_host env = JS.toStr (Cli.host c)
  ∧ Cli.env_schema env
    = (if JS.truthy (Cli.schema c) then JS.toStr (Cli.schema c) else "public")
  ∧ Cli.env_targetDir env = Some (resolve (JS.toStr (Cli.modelsDir p)))
  ∧ accessSync (Cli.env_targetDir env) = true
  ∧ accessSync (Some (dirname (Cli.env_targetAssociationsFile env))) = true.
Proof.
  intros Hs. cbv zeta. revert Hs. unfold Cli.startup, Cli.targetDir.
  destruct (JS.truthy (Cli.host (Cli.connection p))); [|done].
  destruct (JS.truthy (Cli.database (Cli.connection p))); [|done].
  destruct (JS.truthy (Cli.modelsDir p)); [|done].
  destruct (JS.truthy (Cli.relationsFile p)); [|done]. simpl.
  destruct (accessSync (Some (resolve _))) eqn:Ha1; [|done]. simpl.
  destruct (accessSync (Some (dirname _))) eqn:Ha2; [|done]. simpl.
  intros [= <-]. simpl. by rewrite Ha1, Ha2.
Qed.

Lemma testDotPlus_cons (c d : ascii) (r : string) :
  Cli.testDotPlus (String c (String d r))
  = (Ascii.eqb c "." && JS.dot d) || Cli.testDotPlus (String d r).
Proof. reflexivity. Qed.

Lemma testDotPlus_spec (s : string) :
  Cli.testDotPlus s = true
  ↔ ∃ pre c post, s = pre +:+ "." +:+ String c post ∧ JS.dot c = true.
Proof.
  induction s as [|c r IH].
  - split; [done|]. intros (pre & c & post & Hs & _). by destruct pre.
  - destruct r as [|d r].
    + split; [done|]. intros (pre & c' & post & Hs & _).
      destruct pre as [|? [|? ?]]; done.
    + rewrite testDotPlus_cons, orb_true_iff, andb_true_iff, IH. split.
      * intros [[Hc Hd]|(pre & c' & post & -> & Hd)].
        -- apply Ascii.eqb_eq in Hc as ->. by exists "", d, r.
        -- exists (String c pre), c', post. by rewrite append_cons.
      * intros (pre & c' & post & Hs & Hd). destruct pre as [|x pre].
        -- rewrite append_empty_l, append_cons, append_empty_l in Hs.
           injection Hs as -> -> ->. left. by rewrite Ascii.eqb_refl.
        -- rewrite append_cons in Hs. injection Hs as -> Hs. right. by exists pre, c', post.
Qed.

(** X21. The relations file gets the extension of the output language exactly
    when its resolved path has no dot followed by a character other than a
    line terminator, anywhere in the path: a dot in the name of a directory
    counts. *)
Theorem relations_file_extension (p : Cli.Args) (f : string) :
  Cli.relationsFile p = Some f →
  f ≠ "" →
  Cli.targetAssociationsFile resolve p
  = (if Cli.testDotPlus (resolve f) then resolve f
     else resolve f +:+ (if Cli.typescript p then ".ts" else ".js"))
  ∧ (Cli.testDotPlus (resolve f) = true
     ↔ ∃ pre c post, resolve f = pre +:+ "." +:+ String c post ∧ JS.dot c = true).
Proof.
  intros Hf Hne. split; [|apply testDotPlus_spec].
  unfold Cli.targetAssociationsFile. rewrite Hf.
  assert (JS.truthy (Some f) = true) as -> by (by destruct f). simpl.
  by destruct (Cli.testDotPlus (resolve f)), (Cli.typescript p).
Qed.

End MoreStartup.

(** * The further properties on examples *)

(** The foreign keys of the table post: two entries, in row order. *)
Lemma post_entries_in_row_order :
  ∃ code associations,
    generateAssociations (H := Sample.host) Sample.typescriptProgram Sample.postForeignKeys
    = Ok (code, associations)
    ∧ assocsOf associations "post"
      = [ {| manyToMany := false; model := "Category"; fileName := "category" |};
          {| manyToMany := false; model := "Category"; fileName := "category" |} ].
Proof.
  destruct (associations_entries_in_row_order (H := Sample.host) Sample.typescriptProgram
              Sample.postForeignKeys) as (code & associations & Hok & Hassoc).
  - repeat (apply Forall_cons_2; [reflexivity|]). apply Forall_nil_2.
  - exists code, associations. split; [exact Hok|]. rewrite Hassoc. reflexivity.
Defined.

(** After the foreign keys of post: the table category has no array, and
    neither has a table named constructor, whose TypeScript part throws. *)
Lemma category_has_no_array_and_constructor_throws :
  ∃ code associations,
    generateAssociations (H := Sample.host) Sample.typescriptProgram Sample.postForeignKeys
    = Ok (code, associations)
    ∧ associations !! "category" = None
    ∧ typescriptParts (H := Sample.host) Sample.typescriptProgram associations "category" []
      = Ok {| sequelizeImports := ["DataTypes"; "DefineAttributes"; "DefineOptions"];
              includeCode := []; attributeCode := []; instanceCode := [] |}
    ∧ typescriptParts (H := Sample.host) Sample.typescriptProgram associations
        "constructor" [] = Throw TypeError.
Proof.
  do 2 eexists. split; [vm_compute; reflexivity|].
  match goal with |- ?a !! _ = _ ∧ _ => set (associations := a) end.
  destruct (table_without_entry_has_no_association_code (H := Sample.host)
              Sample.typescriptProgram Sample.postForeignKeys
              (relationCode (H := Sample.host) Sample.typescriptProgram
                 <$> Sample.postForeignKeys)
              associations "category" []) as (Hnone & Hbase & _).
  { vm_compute. reflexivity. }
  destruct (table_without_entry_has_no_association_code (H := Sample.host)
              Sample.typescriptProgram Sample.postForeignKeys
              (relationCode (H := Sample.host) Sample.typescriptProgram
                 <$> Sample.postForeignKeys)
              associations "constructor" []) as (_ & _ & Hthrow).
  { vm_compute. reflexivity. }
  match goal with |- ?G ∧ _ => assert G as Hcat end.
  { apply Hnone. intros row Hrow. unfold Sample.postForeignKeys in Hrow.
    apply elem_of_cons in Hrow as [->|Hrow]; [reflexivity|].
    apply list_elem_of_singleton in Hrow as ->. reflexivity. }
  split; [exact Hcat|]. split.
  - apply (Hbase Hcat). reflexivity.
  - apply Hthrow. reflexivity.
Defined.

(** The pivot table post_tag with its foreign-key columns kept. *)
Lemma foreign_keys_kept_on_pivot_table :
  ∃ file,
    generateTableDefinition (H := Sample.host) Blog.keepingProgram ∅ "post_tag"
      Sample.postTagColumns = Ok file
    ∧ Forall2 (λ row col,
                 field col = column_name row
                 ∧ isPrimaryKey col = bool_decide (Some "PRIMARY KEY" ∈ keys row)
                 ∧ allowNull col = bool_decide (is_nullable row = "YES"))
              Sample.postTagColumns (columns file).
Proof.
  eexists. split; [vm_compute; reflexivity|].
  apply (foreign_keys_kept_when_included (H := Sample.host) Blog.keepingProgram ∅ "post_tag").
  - reflexivity.
  - vm_compute. reflexivity.
Defined.

(** A table whose second column is of type uuid. *)
Lemma uuid_column_aborts_table :
  generateTableDefinition (H := Sample.host) Sample.typescriptProgram ∅ "session"
    ([Sample.column "id" "integer" None [Some "PRIMARY KEY"]]
     ++ Sample.column "token" "uuid" None [None]
     :: [Sample.column "title" "text" None [None]])
  = Throw (Error "Unhandled data type: uuid").
Proof.
  apply (unsupported_column_aborts_table (H := Sample.host) Sample.typescriptProgram ∅
           "session" [Sample.column "id" "integer" None [Some "PRIMARY KEY"]]
           [Sample.column "title" "text" None [None]]
           (Sample.column "token" "uuid" None [None])).
  - apply Forall_cons_2; [|apply Forall_nil_2].
    eexists. vm_compute. reflexivity.
  - right. intros Hin. apply list_elem_of_singleton in Hin. discriminate.
  - apply (bool_decide_unpack _). vm_compute. exact I.
Defined.

(** The column title without the camel-case option. *)
Lemma title_column_keeps_its_name :
  ∃ col,
    columnCallback (H := Sample.host) Sample.typescriptProgram
      (Sample.column "title" "text" None [None]) = Ok (Some col)
    ∧ name col = "title" ∧ field col = "title".
Proof.
  eexists. split; [vm_compute; reflexivity|].
  apply (column_name_is_field_name (H := Sample.host) Sample.typescriptProgram
           (Sample.column "title" "text" None [None])).
  - vm_compute. reflexivity.
  - left. reflexivity.
Defined.

(** The throw of a uuid column is that of its classification. *)
Lemma uuid_column_throw_is_from_classification :
  (includeForeignKeys Sample.typescriptProgram = true
   ∨ Some "FOREIGN KEY" ∉ keys (Sample.column "token" "uuid" None [None]))
  ∧ (getColumnType (Sample.column "token" "uuid" None [None])
     = Throw (Error "Unhandled data type: uuid")
     ∨ (data_type (Sample.column "token" "uuid" None [None]) = "USER-DEFINED"
        ∧ RegExp_exec (Host := Sample.host)
            ("'(.+)'::" +:+ JS.toStr (udt_name (Sample.column "token" "uuid" None [None]))
             +:+ "$")
            (JS.toStr (column_default (Sample.column "token" "uuid" None [None])))
          = Throw (Error "Unhandled data type: uuid"))).
Proof.
  apply (column_callback_throws_only_from (H := Sample.host) Sample.typescriptProgram
           (Sample.column "token" "uuid" None [None])).
  vm_compute. reflexivity.
Defined.

(** A serial column. *)
Lemma serial_column_default_is_nextval :
  testNextval (Some "nextval('post_id_seq'::regclass)") = true
  ∧ DNull = DNull
  ∧ execQuoted (Some "nextval('post_id_seq'::regclass)") = None
  ∧ execJsonb (Some "nextval('post_id_seq'::regclass)") = None.
Proof.
  apply (auto_increment_only_from_nextval (H := Sample.host)
           (Sample.column "id" "integer" (Some "nextval('post_id_seq'::regclass)")
              [Some "PRIMARY KEY"]) "INTEGER" DNull).
  vm_compute. reflexivity.
Defined.

(** A text column without default. *)
Lemma title_column_has_no_default :
  defaultChain (H := Sample.host) (Sample.column "title" "text" None [None]) "TEXT"
  = Ok (DNull, false).
Proof.
  apply (missing_default_is_no_default (H := Sample.host)
           (Sample.column "title" "text" None [None]) "TEXT").
  - reflexivity.
  - discriminate.
Defined.

(** A character varying column with the default draft. *)
Lemma status_column_default_is_draft :
  defaultChain (H := Sample.host)
    (Sample.column "status" "character varying" (Some "'draft'::character varying") [None])
    "STRING"
  = Ok (DString (JS.JSON_stringify "draft"), false).
Proof.
  apply (quoted_default_is_string_literal (H := Sample.host)
           (Sample.column "status" "character varying"
              (Some "'draft'::character varying") [None]) "STRING" "draft").
  - right. reflexivity.
  - reflexivity.
Defined.

(** A boolean column whose default is a function call. *)
Lemma boolean_column_default_of_call_is_true :
  ∃ d, getColumnType (Sample.column "active" "boolean" (Some "is_active()") [None]) = Ok d
       ∧ docType d = "boolean"
       ∧ defaultChain (H := Sample.host)
           (Sample.column "active" "boolean" (Some "is_active()") [None]) (dataType d)
         = Ok (DBool (negb (bool_decide ("is_active()" = "false"))), false).
Proof.
  apply (boolean_default_true_unless_false (H := Sample.host)
           (Sample.column "active" "boolean" (Some "is_active()") [None]) "is_active()").
  - reflexivity.
  - reflexivity.
  - discriminate.
  - reflexivity.
  - reflexivity.
  - discriminate.
  - reflexivity.
Defined.

(** An array of integers whose default text lists two numbers. *)
Lemma array_column_default_is_empty :
  ∃ d, getColumnType Blog.scoresRow = Ok d
       ∧ defaultChain (H := Sample.host) Blog.scoresRow (dataType d) = Ok (DString "[]", false).
Proof.
  eexists. split; [vm_compute; reflexivity|].
  apply (array_default_is_empty_array (H := Sample.host) Blog.scoresRow _ "ARRAY[1, 2]").
  - reflexivity.
  - vm_compute. reflexivity.
  - reflexivity.
  - discriminate.
  - reflexivity.
  - reflexivity.
  - discriminate.
  - reflexivity.
Defined.

(** An enumeration of the labels draft and published. *)
Lemma status_enum_has_two_labels :
  getColumnType Blog.statusRow
  = Ok {| dataType := "ENUM('draft', 'published')";
          docType := "string";
          comment := Some "user defined type: post_status";
          tsType := "string" |}.
Proof.
  exact (proj1 (enum_labels_split_at_commas Blog.statusRow "draft,published" eq_refl eq_refl)).
Defined.

(** Two array columns of the same element type, one with a length. *)
Lemma array_columns_of_same_element_type :
  getColumnType Blog.scoresRow
  = getColumnType
      {| column_name := "marks"; column_default := None; is_nullable := "YES";
         data_type := "ARRAY"; character_maximum_length := Some 255%N;
         udt_name := Some "integer[]"; enum_values := None; keys := [] |}.
Proof.
  apply (array_classified_from_udt_name_alone Blog.scoresRow).
  - reflexivity.
  - reflexivity.
  - reflexivity.
Defined.

(** The table post, with two foreign keys to category. *)
Lemma post_imports_category_once :
  ∃ code associations parts,
    generateAssociations (H := Sample.host) Sample.typescriptProgram Sample.postForeignKeys
    = Ok (code, associations)
    ∧ typescriptParts (H := Sample.host) Sample.typescriptProgram associations "post" []
      = Ok parts
    ∧ includeCode parts = ["import { Category } from './category';"]
    ∧ ("FindOptions" ∈ sequelizeImports parts
       ↔ ∃ a, a ∈ assocsOf associations "post" ∧ manyToMany a = true).
Proof.
  do 3 eexists. split; [vm_compute; reflexivity|].
  match goal with |- typescriptParts _ ?a _ _ = _ ∧ _ => set (associations := a) end.
  split; [vm_compute; reflexivity|].
  match goal with |- context [includeCode ?p] =>
    destruct (one_import_per_model (H := Sample.host) Sample.typescriptProgram
                associations "post" [] p)
      as (Hinc & _ & _ & _ & Hfind)
  end.
  - vm_compute. reflexivity.
  - split; [|exact Hfind]. rewrite Hinc. vm_compute. reflexivity.
Defined.

(** A run over three tables whose second one has a uuid column. *)
Lemma run_stops_at_session_table :
  ∃ files,
    generateDefinitions (H := Sample.host) Sample.typescriptProgram ∅ Blog.sessionQuery
      (["post"] ++ "session" :: ["tag"])
    = (files, Throw (Error "Unhandled data type: uuid"))
    ∧ length files = 1%nat.
Proof.
  eexists. split.
  - apply (first_failing_table_stops_the_run (H := Sample.host) Sample.typescriptProgram ∅
             Blog.sessionQuery ["post"] ["tag"] "session").
    + vm_compute. reflexivity.
    + vm_compute. reflexivity.
  - reflexivity.
Defined.

(** A command line of flags. *)
Lemma flags_command_line :
  ∃ p, Cli.parseArgs ["node"; "index.js"; "--camel-case"; "-q"; "--typescript"] = Cli.Done p
       ∧ Cli.typescript p = true
       ∧ Cli.includeForeignKeys p = false
       ∧ Cli.camelCase p = true
       ∧ Cli.quiet p = true.
Proof.
  destruct (flags_alone_parse_in_any_order
              ["node"; "index.js"; "--camel-case"; "-q"; "--typescript"])
    as (p & Hp & Hts & Hfk & Hcc & Hq & _).
  - repeat (apply Forall_cons_2;
            [split; [reflexivity|split; discriminate]|]).
    apply Forall_nil_2.
  - exists p. split; [exact Hp|].
    split; [rewrite Hts; reflexivity|].
    split; [rewrite Hfk; reflexivity|].
    split; [rewrite Hcc; reflexivity|].
    rewrite Hq. reflexivity.
Defined.

(** The help option after a flag, before an option that lacks its value. *)
Lemma help_after_flag_exits :
  Cli.parseArgs (["--typescript"] ++ "--help" :: ["--host"]) = Cli.Exited 0 Cli.Usage
  ∧ Cli.parseArgs (["--typescript"] ++ "--version" :: ["--host"])
    = Cli.Exited 0 Cli.Version.
Proof.
  apply (help_and_version_exit_at_once ["--typescript"] ["--host"]).
  apply Forall_cons_2; [|apply Forall_nil_2].
  split; [reflexivity|split; discriminate].
Defined.

(** A command line that names the database and the two targets only. *)
Lemma command_line_without_host_fails :
  ∃ p, Cli.parseArgs ["--dbname"; "blog"; "--models-dir"; "models";
                      "--relations-file"; "relations"] = Cli.Done p
       ∧ Cli.startup (λ f, "/srv/" +:+ f) (λ _, "/srv") (λ _, true) p
         = Cli.Failed "host is required".
Proof.
  eexists. split; [reflexivity|].
  apply (host_is_required (λ f, "/srv/" +:+ f) (λ _, "/srv") (λ _, true)
           ["--dbname"; "blog"; "--models-dir"; "models"; "--relations-file"; "relations"]).
  - repeat (apply Forall_cons_2; [split; discriminate|]). apply Forall_nil_2.
  - reflexivity.
Defined.

(** A complete command line, both directories being there. *)
Lemma complete_command_line_is_ready :
  Cli.parseArgs ["-h"; "db.local"; "-d"; "blog"; "--models-dir"; "models";
                 "--relations-file"; "relations"] = Cli.Done Blog.blogArgs
  ∧ ∃ env,
      Cli.startup (λ f, "/srv/" +:+ f) (λ _, "/srv") (λ _, true) Blog.blogArgs = Cli.Ready env
      ∧ Cli.env_host env = "db.local"
      ∧ Cli.env_schema env = "public"
      ∧ Cli.env_targetDir env = Some "/srv/models".
Proof.
  split; [reflexivity|].
  eexists. split; [vm_compute; reflexivity|].
  match goal with |- Cli.env_host ?e = _ ∧ _ =>
    destruct (ready_environment (λ f, "/srv/" +:+ f) (λ _, "/srv") (λ _, true) Blog.blogArgs e)
      as (_ & _ & _ & _ & Hhost & Hschema & Hdir & _)
  end.
  - vm_compute. reflexivity.
  - split; [exact Hhost|]. split; [exact Hschema|exact Hdir].
Defined.

(** A relations file without extension below a directory whose name holds a
    dot: the test finds the dot of the directory and no extension is added. *)
Lemma relations_file_below_dotted_directory :
  Cli.targetAssociationsFile (λ f, "/srv/app.v2/" +:+ f) Blog.blogArgs = "/srv/app.v2/relations"
  ∧ Cli.targetAssociationsFile (λ f, "/srv/" +:+ f) Blog.blogArgs = "/srv/relations.js".
Proof.
  split.
  - refine (proj1 (relations_file_extension (λ f, "/srv/app.v2/" +:+ f) Blog.blogArgs
                     "relations" eq_refl _)).
    discriminate.
  - refine (proj1 (relations_file_extension (λ f, "/srv/" +:+ f) Blog.blogArgs
                     "relations" eq_refl _)).
    discriminate.
Defined.
